(** * trustlines clientlib: order hashing, order assembly and the ethers wallet

    A shallow embedding of [Exchange] (order hashing, make / take / cancel
    order) and of [EthersWallet] (load, sign, keystore), with the properties
    the specification states about them.

    Conventions of the embedding.
    - A [Buffer] is a list of integers, each in [0, 256).
    - A hex string that denotes binary data (an address) is kept as the bytes
      it denotes; a string that holds a decimal integer (an amount's [raw],
      the expiration timestamp, the salt) is a [Decimal.int], a signed
      sequence of decimal digits.
    - A JavaScript number that holds an integer is [Finite z]; the conversion
      from a big number rounds to 53 significant bits, ties to even.
    - A promise is a computation over the log of the calls made to the
      collaborators, that resolves ([Ok]) or rejects ([Throw]).
    - The cryptographic primitives (keccak, the curve signature, the keystore
      cipher) are variables of the sections that use them.

    The file has three parts: the program, the vocabulary of the properties
    together with the doubles used to run the program on examples, and the
    properties. *)

From Stdlib Require Import String Ascii.
From Stdlib Require Import ZArith List Bool Lia Permutation.
From Stdlib Require Import QArith.
From Stdlib Require Import DecimalString DecimalZ.
Import ListNotations.
Local Open Scope Z_scope.

(** ** Results of operations that may throw or reject *)

(** An [Error] (or a rejection reason) by its message. *)
Definition error := string.
Bind Scope string_scope with error.

Inductive result (A : Type) : Type :=
| Ok (a : A)
| Throw (e : error).
Arguments Ok {A} a.
Arguments Throw {A} e%_string.

Definition isOk {A} (r : result A) : bool :=
  match r with Ok _ => true | Throw _ => false end.

(** ** Buffers and big-endian words *)

Definition Buffer := list Z.

Definition isByte (b : Z) : Prop := 0 <= b < 256.

(** The [w]-byte big-endian image of [n] (of [n mod 256^w]). *)
Fixpoint be_bytes (w : nat) (n : Z) : Buffer :=
  match w with
  | O => []
  | S w' => (n / 256 ^ Z.of_nat w') mod 256 :: be_bytes w' n
  end.

(** The number a big-endian buffer holds, on top of the accumulator [acc]. *)
Fixpoint be_value_from (acc : Z) (bs : Buffer) : Z :=
  match bs with
  | [] => acc
  | b :: bs' => be_value_from (acc * 256 + b) bs'
  end.

Definition be_value (bs : Buffer) : Z := be_value_from 0 bs.

(** ethereumjs-util [setLengthLeft(msg, length)]: zero-pad on the left, or keep
    the last [length] bytes of a longer buffer. *)
Definition setLengthLeft (msg : Buffer) (len : nat) : Buffer :=
  if (length msg <? len)%nat
  then repeat 0 (len - length msg) ++ msg
  else skipn (length msg - len) msg.

(** ** Hex strings *)

Definition hexDigit (n : Z) : ascii :=
  ascii_of_nat (Z.to_nat (if n <? 10 then 48 + n else 87 + n)).

Definition hexVal (c : ascii) : option Z :=
  let n := Z.of_nat (nat_of_ascii c) in
  if (48 <=? n) && (n <=? 57) then Some (n - 48)
  else if (97 <=? n) && (n <=? 102) then Some (n - 87)
  else if (65 <=? n) && (n <=? 70) then Some (n - 55)
  else None.

Fixpoint hexOfBytes (bs : Buffer) : string :=
  match bs with
  | [] => EmptyString
  | b :: bs' => String (hexDigit (b / 16)) (String (hexDigit (b mod 16)) (hexOfBytes bs'))
  end.

(** ethereumjs-util [bufferToHex]. *)
Definition bufferToHex (bs : Buffer) : string :=
  String "0" (String "x" (hexOfBytes bs)).

Fixpoint allHex (s : string) : bool :=
  match s with
  | EmptyString => true
  | String c s' => match hexVal c with Some _ => allHex s' | None => false end
  end.

(** ethers [utils.isHexString(value)] called with no length: the value matches
    [/^0x[0-9A-Fa-f]*$/]. With a length it also asks for that many bytes. *)
Definition isHexString (value : string) (len : option nat) : bool :=
  match value with
  | String "0" (String "x" digits) =>
      allHex digits &&
      match len with
      | None => true
      | Some n => (String.length digits =? 2 * n)%nat
      end
  | _ => false
  end.

Fixpoint hexPairs (s : string) : option Buffer :=
  match s with
  | EmptyString => Some []
  | String a (String b rest) =>
      match hexVal a, hexVal b, hexPairs rest with
      | Some x, Some y, Some l => Some (16 * x + y :: l)
      | _, _, _ => None
      end
  | String _ EmptyString => None
  end.

(** ethers [utils.arrayify] on a string: a 0x-prefixed hex string, an odd
    number of digits completed by a leading zero, two digits a byte. *)
Definition arrayify (value : string) : result Buffer :=
  match value with
  | String "0" (String "x" digits) =>
      let even := if Nat.even (String.length digits) then digits else String "0" digits in
      match hexPairs even with
      | Some bs => Ok bs
      | None => Throw "invalid hexidecimal string"
      end
  | _ => Throw "hex string must have 0x prefix"
  end.

(** ** JavaScript numbers holding integers *)

Inductive number : Type :=
| Finite (z : Z)
| Infinity (negative : bool).

(** Round a non-negative integer to 53 significant bits, ties to even. *)
Definition round53 (m : Z) : Z :=
  let l := Z.log2 m in
  if l <? 53 then m
  else
    let d := l - 52 in
    let q := m / 2 ^ d in
    let r := m mod 2 ^ d in
    let h := 2 ^ (d - 1) in
    (if (h <? r) || ((r =? h) && Z.odd q) then q + 1 else q) * 2 ^ d.

(** bignumber.js [toNumber()] on an integer: the nearest double. *)
Definition toNumber (n : Z) : number :=
  let m := round53 (Z.abs n) in
  if 2 ^ 1024 <=? m then Infinity (n <? 0) else Finite (Z.sgn n * m).

(** [new BigNumber(s, 10)] on a string of decimal digits. *)
Definition BigNumber (s : Decimal.int) : Z := Z.of_int s.

(** [Number.prototype.toString()] on an integer below 10^21. *)
Definition toString (n : Z) : Decimal.int := Z.to_int n.

(** ** The ABI packer (ethereumjs-abi over bn.js)

    [soliditySHA3(types, values)] is keccak-256 of [solidityPack(types, values)].
    [solidityPack] appends, value after value and with nothing in between, an
    [address] as [setLengthLeft(value, 20)] and a [uint256] as the 32-byte
    big-endian image of [parseNumber(value)]. On a JavaScript number
    [parseNumber] is [new BN(value)], and bn.js builds a BN from a number only
    below 2^53: its [_initNumber] ends in
    [assert(number < 0x20000000000000); // 2 ^ 53 (unsafe)]. *)
Module EthABI.

(** One [{ value, type }] entry of the list that is packed. *)
Inductive part : Type :=
| Address (value : Buffer)
| Uint256 (value : number).

(** [new BN(number)]: sign and magnitude, the magnitude below 2^53. *)
Definition BN_initNumber (x : number) : result Z :=
  match x with
  | Finite z => if Z.abs z <? 2 ^ 53 then Ok z else Throw "Assertion failed"
  | Infinity _ => Throw "Assertion failed"
  end.

Definition parseNumber (x : number) : result Z := BN_initNumber x.

(** [BN.prototype.bitLength]. *)
Definition bitLength (z : Z) : Z :=
  if Z.abs z =? 0 then 0 else Z.log2 (Z.abs z) + 1.

Definition packOne (p : part) : result Buffer :=
  match p with
  | Address v => Ok (setLengthLeft v 20)
  | Uint256 v =>
      match parseNumber v with
      | Throw e => Throw e
      | Ok num =>
          if 256 <? bitLength num
          then Throw "Supplied uint exceeds width: 256"
          else Ok (be_bytes 32 (Z.abs num))
      end
  end.

Fixpoint solidityPack (ps : list part) : result Buffer :=
  match ps with
  | [] => Ok []
  | p :: ps' =>
      match packOne p with
      | Throw e => Throw e
      | Ok b =>
          match solidityPack ps' with
          | Throw e => Throw e
          | Ok bs => Ok (b ++ bs)
          end
      end
  end.

Section Keccak.
Variable keccak256 : Buffer -> Buffer.

Definition soliditySHA3 (ps : list part) : result Buffer :=
  match solidityPack ps with
  | Throw e => Throw e
  | Ok bs => Ok (keccak256 bs)
  end.

End Keccak.

End EthABI.

(** ** Orders *)

(** An address: the 20 bytes its hex string denotes when it is well formed. *)
Definition address := Buffer.

Definition ZERO_ADDRESS : address := repeat 0 20%nat.

(** An amount as [utils.formatAmount] returns it: [{ decimals, raw, value }]. *)
Record Amount : Type := {
  decimals : Z;
  raw : Decimal.int;
  value : string
}.

Record ECSignature : Type := {
  sig_r : string;
  sig_s : string;
  sig_v : Z
}.

(** [Order], and [SignedOrder] once [ecSignature] (and [hash]) are set. *)
Record Order : Type := {
  exchangeContractAddress : address;
  maker : address;
  taker : address;
  makerTokenAddress : address;
  takerTokenAddress : address;
  feeRecipient : address;
  makerTokenAmount : Amount;
  takerTokenAmount : Amount;
  makerFee : Amount;
  takerFee : Amount;
  expirationUnixTimestampSec : Decimal.int;
  salt : Decimal.int;
  ecSignature : option ECSignature;
  hash : option string
}.

(** *** An order as a JavaScript object

    The object a caller hands over: properties in the order they were set.
    [getOrderHashHex (order: any)] reads it property by property. *)
Inductive jsval : Type :=
| JAddress (a : address)
| JAmount (a : Amount)
| JDecimal (d : Decimal.int)
| JSignature (s : ECSignature)
| JString (s : string).

Definition jsobject := list (string * jsval).

(** [obj.key]: the first entry under that key, [None] for [undefined]. *)
Fixpoint prop (obj : jsobject) (key : string) : option jsval :=
  match obj with
  | [] => None
  | (k, v) :: obj' => if String.eqb k key then Some v else prop obj' key
  end.

Definition propAddress (obj : jsobject) (key : string) : option address :=
  match prop obj key with Some (JAddress a) => Some a | _ => None end.

Definition propAmount (obj : jsobject) (key : string) : option Amount :=
  match prop obj key with Some (JAmount a) => Some a | _ => None end.

Definition propDecimal (obj : jsobject) (key : string) : option Decimal.int :=
  match prop obj key with Some (JDecimal d) => Some d | _ => None end.

Definition propSignature (obj : jsobject) (key : string) : option ECSignature :=
  match prop obj key with Some (JSignature s) => Some s | _ => None end.

Definition propString (obj : jsobject) (key : string) : option string :=
  match prop obj key with Some (JString s) => Some s | _ => None end.

(** The object read at type [Order]: [None] when a property of the order is
    missing or of another type. *)
Definition asOrder (obj : jsobject) : option Order :=
  match propAddress obj "exchangeContractAddress", propAddress obj "maker",
        propAddress obj "taker", propAddress obj "makerTokenAddress",
        propAddress obj "takerTokenAddress", propAddress obj "feeRecipient" with
  | Some ex, Some mk, Some tk, Some mta, Some tta, Some fr =>
      match propAmount obj "makerTokenAmount", propAmount obj "takerTokenAmount",
            propAmount obj "makerFee", propAmount obj "takerFee",
            propDecimal obj "expirationUnixTimestampSec", propDecimal obj "salt" with
      | Some ma, Some ta, Some mf, Some tf, Some ts, Some sa =>
          Some {| exchangeContractAddress := ex; maker := mk; taker := tk;
                  makerTokenAddress := mta; takerTokenAddress := tta;
                  feeRecipient := fr; makerTokenAmount := ma;
                  takerTokenAmount := ta; makerFee := mf; takerFee := tf;
                  expirationUnixTimestampSec := ts; salt := sa;
                  ecSignature := propSignature obj "ecSignature";
                  hash := propString obj "hash" |}
      | _, _, _, _, _, _ => None
      end
  | _, _, _, _, _, _ => None
  end.

(** The twelve properties the hash reads, in the order it reads them. *)
Definition hashedFields : list string :=
  [ "exchangeContractAddress"; "maker"; "taker"; "makerTokenAddress";
    "takerTokenAddress"; "feeRecipient"; "makerTokenAmount"; "takerTokenAmount";
    "makerFee"; "takerFee"; "expirationUnixTimestampSec"; "salt" ]%string.

(** ** Exchange.getOrderHashHex *)
Module Hasher.
Import EthABI.

(** [orderParts]: the twelve [{ value, type }] entries, in this order. *)
Definition orderParts (order : Order) : list part :=
  [ Address (exchangeContractAddress order);
    Address (maker order);
    Address (taker order);
    Address (makerTokenAddress order);
    Address (takerTokenAddress order);
    Address (feeRecipient order);
    Uint256 (toNumber (BigNumber (raw (makerTokenAmount order))));
    Uint256 (toNumber (BigNumber (raw (takerTokenAmount order))));
    Uint256 (toNumber (BigNumber (raw (makerFee order))));
    Uint256 (toNumber (BigNumber (raw (takerFee order))));
    Uint256 (toNumber (BigNumber (expirationUnixTimestampSec order)));
    Uint256 (toNumber (BigNumber (salt order))) ].

Section Keccak.
Variable keccak256 : Buffer -> Buffer.

Definition getOrderHashHex (order : Order) : result string :=
  match soliditySHA3 keccak256 (orderParts order) with
  | Throw e => Throw e
  | Ok hashBuff => Ok (bufferToHex hashBuff)
  end.

(** [getOrderHashHex] on the object itself ([order: any]), where it has the
    properties of an order. *)
Definition getOrderHashHexOf (obj : jsobject) : option (result string) :=
  option_map getOrderHashHex (asOrder obj).

End Keccak.

(** The bytes the specification says are hashed: six 20-byte addresses, then
    six 32-byte big-endian unsigned integers, nothing in between. *)
Definition packedOrder (order : Order) : Buffer :=
  exchangeContractAddress order ++ maker order ++ taker order ++
  makerTokenAddress order ++ takerTokenAddress order ++ feeRecipient order ++
  be_bytes 32 (BigNumber (raw (makerTokenAmount order))) ++
  be_bytes 32 (BigNumber (raw (takerTokenAmount order))) ++
  be_bytes 32 (BigNumber (raw (makerFee order))) ++
  be_bytes 32 (BigNumber (raw (takerFee order))) ++
  be_bytes 32 (BigNumber (expirationUnixTimestampSec order)) ++
  be_bytes 32 (BigNumber (salt order)).

Definition isAddress (a : address) : Prop :=
  length a = 20%nat /\ Forall isByte a.

(** The integers of the six [uint256] fields. *)
Definition uintFields (order : Order) : list Z :=
  [ BigNumber (raw (makerTokenAmount order));
    BigNumber (raw (takerTokenAmount order));
    BigNumber (raw (makerFee order));
    BigNumber (raw (takerFee order));
    BigNumber (expirationUnixTimestampSec order);
    BigNumber (salt order) ].

Definition addressFields (order : Order) : list address :=
  [ exchangeContractAddress order; maker order; taker order;
    makerTokenAddress order; takerTokenAddress order; feeRecipient order ].

(** A well-formed order: six addresses of 20 bytes, six non-negative integers
    that a double holds exactly as a safe integer. *)
Definition wellFormed (order : Order) : Prop :=
  Forall isAddress (addressFields order) /\
  Forall (fun n => 0 <= n < 2 ^ 53) (uintFields order).

End Hasher.

(** ** Doubles below one, and [Math.floor(Math.random() * 1000000000)] *)

(** A non-negative double written [mant / 2^expo]. *)
Record dyadic : Type := {
  mant : Z;
  expo : Z
}.

(** What [Math.random()] may return: a double in [0, 1). Every such double is
    [mant / 2^expo] with at most 53 bits of mantissa and [expo <= 1074]. *)
Definition isRandom (r : dyadic) : Prop :=
  0 <= expo r <= 1074 /\ 0 <= mant r < 2 ^ 53 /\ mant r < 2 ^ expo r.

(** [r * k] in double arithmetic, for [k] a non-negative integer that a double
    holds: the exact product rounded to 53 bits, ties to even. With
    [expo <= 1074] the product is on the grid of the subnormals already, and
    below [k] it cannot overflow. *)
Definition times (r : dyadic) (k : Z) : dyadic :=
  {| mant := round53 (mant r * k); expo := expo r |}.

Definition Math_floor (x : dyadic) : Z := mant x / 2 ^ expo x.

(** ** The Exchange class *)
Module Exchange.

(** A route as [payment.getPath] resolves it, or the literal that stands for
    a token outside the trustline network. [isNoNetwork] is [false] where the
    property is absent. *)
Inductive fees : Type :=
| FeesAmount (a : Amount)
| FeesNumber (n : Z).

Record PathObj : Type := {
  path : list address;
  maxFees : fees;
  estimatedGas : Z;
  isNoNetwork : bool
}.

Record ExchangeOptions : Type := {
  gasLimit : option Q;
  gasPrice : option Q;
  makerTokenDecimals : option Z;
  takerTokenDecimals : option Z;
  expirationOption : option Z
}.

(** An argument of a contract call. *)
Inductive txArg : Type :=
| ArgAddresses (l : list address)
| ArgNumbers (l : list number)
| ArgInteger (d : Decimal.int)
| ArgNumber (n : Z)
| ArgString (s : string).

Record TxObject : Type := {
  rawTx : string;
  ethFees : Amount
}.

(** The calls an operation makes to its collaborators, as they are logged.
    [CallPost] carries the signed order that is posted (its amounts go out as
    their raw strings). *)
Inductive Event : Type :=
| CallGetDecimals (token : address)
| CallIsNetwork (token : address)
| CallGetPath (token from to : address) (amount : string) (dec : Z)
| CallPrepFuncTx (from to : address) (contractName functionName : string)
    (args : list txArg) (price limit : option Q)
| CallSignMsgHash (msgHash : string)
| CallSignTx (tx : string)
| CallRelayTx (signedTx : string)
| CallPost (endpoint : string) (body : Order).

(** The collaborators handed to the constructor, and the big-number
    arithmetic of [getPartialAmount]. *)
Record Env : Type := {
  user_address : address;
  user_signMsgHash : string -> result ECSignature;
  user_signTx : string -> result string;
  getDecimals : address -> option Z -> result Z;
  isNetwork : address -> result bool;
  getPath : address -> address -> address -> string -> Z -> result PathObj;
  prepFuncTx : address -> address -> string -> string -> list txArg ->
               option Q -> option Q -> result TxObject;
  relayTx : string -> result string;
  fetchUrl : string -> Order -> result unit;
  formatAmount : string -> Z -> Amount;
  calcRaw : string -> Z -> Decimal.int;
  timesDividedBy : string -> string -> string -> string
}.

(** *** Promises *)

Definition Async (A : Type) : Type := list Event -> result A * list Event.

Definition resolve {A} (a : A) : Async A := fun log => (Ok a, log).

Definition reject {A} (e : error) : Async A := fun log => (Throw e, log).
Arguments reject {A} e%_string.

(** [await]: the continuation runs when the promise resolves; a rejection is
    what the enclosing [try] hands to [Promise.reject]. *)
Definition bind {A B} (m : Async A) (k : A -> Async B) : Async B :=
  fun log =>
    match m log with
    | (Ok a, log') => k a log'
    | (Throw e, log') => (Throw e, log')
    end.

(** A call to a collaborator: logged, then resolved or rejected. *)
Definition call {A} (ev : Event) (r : result A) : Async A :=
  fun log => (r, log ++ [ev]).

(** A synchronous step that may throw inside the [try]. *)
Definition lift {A} (r : result A) : Async A := fun log => (r, log).

Notation "x <- m ;; k" := (bind m (fun x => k))
  (at level 61, m at next level, right associativity).
Notation "' pat <- m ;; k" := (bind m (fun x => match x with pat => k end))
  (at level 61, pat pattern, m at next level, right associativity).

(** [Promise.all]. The promises of the array are all started when the array
    is built: each makes its first call then, in the order of the array,
    before any of them is awaited. A promise makes its next call when the one
    before is answered, and the answers come in the order of the calls, so
    that the calls of the promises come in turns. [a []] is a promise run on
    its own: its outcome and the calls it makes, each awaited before the
    next. *)
Fixpoint turns (n : nat) (legs : list (list Event)) : list Event :=
  match n with
  | O => []
  | S n' => flat_map (firstn 1) legs ++ turns n' (map (@tl Event) legs)
  end.

Definition inTurns (legs : list (list Event)) : list Event :=
  turns (list_max (map (@length Event) legs)) legs.

(** The result of [Promise.all] is the first rejection in time: a promise that
    rejects does so when its last call is answered, so the earliest is the
    one with the fewest calls, and among those the first of the array. The
    other promises are not stopped: their calls are in the log. *)
Definition all2 {A B} (a : Async A) (b : Async B) : Async (A * B) :=
  fun log =>
    let (ra, ca) := a [] in
    let (rb, cb) := b [] in
    (match ra, rb with
     | Ok x, Ok y => Ok (x, y)
     | Throw e, Ok _ => Throw e
     | Ok _, Throw e => Throw e
     | Throw ea, Throw eb =>
         if (length ca <=? length cb)%nat then Throw ea else Throw eb
     end, log ++ inTurns [ca; cb]).

Definition all3 {A B C} (a : Async A) (b : Async B) (c : Async C)
  : Async (A * B * C) :=
  fun log =>
    let (ra, ca) := a [] in
    let (rb, cb) := b [] in
    let (rc, cc) := c [] in
    (match ra, rb, rc with
     | Ok x, Ok y, Ok z => Ok (x, y, z)
     | Throw e, Ok _, Ok _ => Throw e
     | Ok _, Throw e, Ok _ => Throw e
     | Ok _, Ok _, Throw e => Throw e
     | Throw ea, Throw eb, Ok _ =>
         if (length ca <=? length cb)%nat then Throw ea else Throw eb
     | Throw ea, Ok _, Throw ec =>
         if (length ca <=? length cc)%nat then Throw ea else Throw ec
     | Ok _, Throw eb, Throw ec =>
         if (length cb <=? length cc)%nat then Throw eb else Throw ec
     | Throw ea, Throw eb, Throw ec =>
         if (length ca <=? length cb)%nat
         then (if (length ca <=? length cc)%nat then Throw ea else Throw ec)
         else (if (length cb <=? length cc)%nat then Throw eb else Throw ec)
     end, log ++ inTurns [ca; cb; cc]).

Section WithEnv.
Variable env : Env.

Definition currencyNetwork_getDecimals (token : address) (given : option Z) : Async Z :=
  call (CallGetDecimals token) (getDecimals env token given).

(** *** Private helpers *)

Definition getOrderAddresses (order : Order) : list address :=
  [ maker order; ZERO_ADDRESS; makerTokenAddress order;
    takerTokenAddress order; feeRecipient order ].

(** [toInt] on a string: [parseInt(int, 10)]. *)
Definition toInt (s : Decimal.int) : number := toNumber (Z.of_int s).

Definition getOrderValues (order : Order) : list number :=
  [ toInt (raw (makerTokenAmount order));
    toInt (raw (takerTokenAmount order));
    Finite 0;
    Finite 0;
    toInt (expirationUnixTimestampSec order);
    toInt (salt order) ].

Definition getPartialAmount (numerator denominator target : string) : string :=
  timesDividedBy env numerator target denominator.

(** Fees are disabled: the order with a zero fee recipient and zero fees. *)
Definition getFees (order : Order) : Async Order :=
  resolve {| exchangeContractAddress := exchangeContractAddress order;
             maker := maker order;
             taker := taker order;
             makerTokenAddress := makerTokenAddress order;
             takerTokenAddress := takerTokenAddress order;
             feeRecipient := ZERO_ADDRESS;
             makerTokenAmount := makerTokenAmount order;
             takerTokenAmount := takerTokenAmount order;
             makerFee := formatAmount env "0" 2;
             takerFee := formatAmount env "0" 2;
             expirationUnixTimestampSec := expirationUnixTimestampSec order;
             salt := salt order;
             ecSignature := ecSignature order;
             hash := hash order |}.

(** The literal [getPathObj] returns for a token that is no network. *)
Definition noNetworkPath : PathObj :=
  {| path := []; maxFees := FeesNumber 0; estimatedGas := 40000; isNoNetwork := true |}.

Definition getPathObj (tokenAddress from to : address) (amount : string) (dec : Z)
  : Async PathObj :=
  network <- call (CallIsNetwork tokenAddress) (isNetwork env tokenAddress) ;;
  if (network : bool)
  then call (CallGetPath tokenAddress from to amount dec)
            (getPath env tokenAddress from to amount dec)
  else resolve noNetworkPath.

(** [path.length === 1 ? path : path.slice(1)]. *)
Definition pathArgument (p : list address) : list address :=
  if (length p =? 1)%nat then p else tl p.

(** The test before the contract call of [prepTakeOrder]. *)
Definition noRoute (p : PathObj) : bool :=
  (length (path p) =? 0)%nat && negb (isNoNetwork p).

Record TakeOrderTx : Type := {
  take_rawTx : string;
  take_ethFees : Amount;
  makerMaxFees : fees;
  makerPath : list address;
  takerMaxFees : fees;
  takerPath : list address
}.

(** *** prepTakeOrder *)
Definition prepTakeOrder (signedOrder : Order) (fillTakerTokenValue : string)
  (options : ExchangeOptions) : Async TakeOrderTx :=
  '(makerDecimals, takerDecimals, orderWithFees) <-
     all3 (currencyNetwork_getDecimals (makerTokenAddress signedOrder)
                                       (makerTokenDecimals options))
          (currencyNetwork_getDecimals (takerTokenAddress signedOrder)
                                       (takerTokenDecimals options))
          (getFees signedOrder) ;;
  '(makerPathObj, takerPathObj) <-
     all2 (getPathObj (makerTokenAddress signedOrder)
                      (maker signedOrder)
                      (user_address env)
                      (getPartialAmount fillTakerTokenValue
                         (value (takerTokenAmount signedOrder))
                         (value (makerTokenAmount signedOrder)))
                      makerDecimals)
          (getPathObj (takerTokenAddress signedOrder)
                      (user_address env)
                      (maker signedOrder)
                      fillTakerTokenValue
                      takerDecimals) ;;
  let orderAddresses := getOrderAddresses orderWithFees in
  let orderValues := getOrderValues orderWithFees in
  if noRoute makerPathObj || noRoute takerPathObj
  then reject "Could not find a path with enough capacity"
  else
    match ecSignature signedOrder with
    | None => reject "Cannot read property 'v' of undefined"
    | Some sg =>
        let args :=
          [ ArgAddresses orderAddresses;
            ArgNumbers orderValues;
            ArgInteger (calcRaw env fillTakerTokenValue takerDecimals);
            ArgAddresses (pathArgument (path makerPathObj));
            ArgAddresses (pathArgument (path takerPathObj));
            ArgNumber (sig_v sg);
            ArgString (sig_r sg);
            ArgString (sig_s sg) ] in
        let limit :=
          Some (inject_Z (estimatedGas takerPathObj + estimatedGas makerPathObj)
                * (3 # 2))%Q in
        tx <- call (CallPrepFuncTx (user_address env)
                      (exchangeContractAddress signedOrder)
                      "Exchange" "fillOrderTrustlines" args
                      (gasPrice options) limit)
                   (prepFuncTx env (user_address env)
                      (exchangeContractAddress signedOrder)
                      "Exchange" "fillOrderTrustlines" args
                      (gasPrice options) limit) ;;
        resolve {| take_rawTx := rawTx tx;
                   take_ethFees := ethFees tx;
                   makerMaxFees := maxFees makerPathObj;
                   makerPath := path makerPathObj;
                   takerMaxFees := maxFees takerPathObj;
                   takerPath := path takerPathObj |}
    end.

(** *** cancelOrder *)
Definition cancelOrder (signedOrder : Order) (cancelTakerTokenValue : string)
  (options : ExchangeOptions) : Async TxObject :=
  '(takerDecimals, orderWithFees) <-
     all2 (currencyNetwork_getDecimals (takerTokenAddress signedOrder)
                                       (takerTokenDecimals options))
          (getFees signedOrder) ;;
  let orderAddresses := getOrderAddresses orderWithFees in
  let orderValues := getOrderValues orderWithFees in
  match ecSignature signedOrder with
  | None => reject "Cannot read property 'v' of undefined"
  | Some sg =>
      let args :=
        [ ArgAddresses orderAddresses;
          ArgNumbers orderValues;
          ArgInteger (calcRaw env cancelTakerTokenValue takerDecimals);
          ArgNumber (sig_v sg);
          ArgString (sig_r sg);
          ArgString (sig_s sg) ] in
      tx <- call (CallPrepFuncTx (user_address env)
                    (exchangeContractAddress signedOrder)
                    "Exchange" "fillOrderTrustlines" args
                    (gasPrice options) (gasLimit options))
                 (prepFuncTx env (user_address env)
                    (exchangeContractAddress signedOrder)
                    "Exchange" "fillOrderTrustlines" args
                    (gasPrice options) (gasLimit options)) ;;
      resolve {| rawTx := rawTx tx; ethFees := ethFees tx |}
  end.

(** *** confirm *)
Definition confirm (tx : string) : Async string :=
  signedTx <- call (CallSignTx tx) (user_signTx env tx) ;;
  call (CallRelayTx signedTx) (relayTx env signedTx).

(** *** makeOrder *)

(** [ethUtils.toChecksumAddress] changes the case of the hex digits only. *)
Definition toChecksumAddress (a : address) : address := a.

Definition defaultExpiration : Z := 2524604400.

(** The salt of a new order, from the double [Math.random()] returned. *)
Definition newSalt (random : dyadic) : Decimal.int :=
  toString (Math_floor (times random 1000000000)).

Definition withSignature (order : Order) (sg : ECSignature) : Order :=
  {| exchangeContractAddress := exchangeContractAddress order;
     maker := maker order;
     taker := taker order;
     makerTokenAddress := makerTokenAddress order;
     takerTokenAddress := takerTokenAddress order;
     feeRecipient := feeRecipient order;
     makerTokenAmount := makerTokenAmount order;
     takerTokenAmount := takerTokenAmount order;
     makerFee := makerFee order;
     takerFee := takerFee order;
     expirationUnixTimestampSec := expirationUnixTimestampSec order;
     salt := salt order;
     ecSignature := Some sg;
     hash := hash order |}.

Definition withHash (order : Order) (h : string) : Order :=
  {| exchangeContractAddress := exchangeContractAddress order;
     maker := maker order;
     taker := taker order;
     makerTokenAddress := makerTokenAddress order;
     takerTokenAddress := takerTokenAddress order;
     feeRecipient := feeRecipient order;
     makerTokenAmount := makerTokenAmount order;
     takerTokenAmount := takerTokenAmount order;
     makerFee := makerFee order;
     takerFee := takerFee order;
     expirationUnixTimestampSec := expirationUnixTimestampSec order;
     salt := salt order;
     ecSignature := ecSignature order;
     hash := Some h |}.

Variable keccak256 : Buffer -> Buffer.

(** [random] is the value the call draws from [Math.random()]. *)
Definition makeOrder (random : dyadic)
  (exchangeAddress makerToken takerToken : address)
  (makerTokenValue takerTokenValue : string)
  (options : ExchangeOptions) : Async Order :=
  '(makerDecimals, takerDecimals) <-
     all2 (currencyNetwork_getDecimals makerToken (makerTokenDecimals options))
          (currencyNetwork_getDecimals takerToken (takerTokenDecimals options)) ;;
  let order :=
    {| exchangeContractAddress := exchangeAddress;
       expirationUnixTimestampSec :=
         toString (match expirationOption options with
                   | Some t => t
                   | None => defaultExpiration
                   end);
       feeRecipient := ZERO_ADDRESS;
       maker := user_address env;
       makerFee := formatAmount env "0" makerDecimals;
       makerTokenAddress := toChecksumAddress makerToken;
       makerTokenAmount := formatAmount env makerTokenValue makerDecimals;
       salt := newSalt random;
       taker := ZERO_ADDRESS;
       takerFee := formatAmount env "0" makerDecimals;
       takerTokenAddress := toChecksumAddress takerToken;
       takerTokenAmount := formatAmount env takerTokenValue takerDecimals;
       ecSignature := None;
       hash := None |} in
  orderWithFees <- getFees order ;;
  orderHash <- lift (Hasher.getOrderHashHex keccak256 orderWithFees) ;;
  sg <- call (CallSignMsgHash orderHash) (user_signMsgHash env orderHash) ;;
  let signedOrder := withSignature orderWithFees sg in
  _ <- call (CallPost "exchange/order" signedOrder)
            (fetchUrl env "exchange/order" signedOrder) ;;
  resolve (withHash signedOrder orderHash).

End WithEnv.

End Exchange.

(** ** The EthersWallet class *)
Module EthersWallet.

Record SigningKey : Type := {
  privateKey : Buffer;
  mnemonic : option string
}.

(** Wallet data of type [ethers]: [{ type, version, address, meta: { signingKey } }]. *)
Record EthersWalletData : Type := {
  wd_type : string;
  wd_version : Z;
  wd_address : address;
  wd_signingKey : SigningKey
}.

Record Signature : Type := {
  concatSig : string;
  sigParts : ECSignature
}.

(** [ethersUtils.Arrayish]: a string, signed as its text, or an array of bytes. *)
Inductive Arrayish : Type :=
| Text (s : string)
| Bytes (b : Buffer).

Definition toUtf8Bytes (s : string) : Buffer :=
  map (fun c => Z.of_nat (nat_of_ascii c)) (list_ascii_of_string s).

Definition messageBytes (m : Arrayish) : Buffer :=
  match m with
  | Text s => toUtf8Bytes s
  | Bytes b => b
  end.

(** The bytes of ["\x19Ethereum Signed Message:\n"]. *)
Definition messagePrefix : Buffer :=
  25 :: toUtf8Bytes "Ethereum Signed Message:" ++ [10].

(** The decimal digits of a length, as bytes. *)
Definition lengthBytes (n : nat) : Buffer :=
  toUtf8Bytes (NilZero.string_of_uint (Nat.to_uint n)).

(** What is hashed for a message: prefix, length, payload. *)
Definition personalMessage (payload : Buffer) : Buffer :=
  messagePrefix ++ lengthBytes (length payload) ++ payload.

(** The spec's names for the two errors this class throws itself. *)
Definition NoAccountLoadedError : error := "No wallet loaded.".
Definition InvalidInputError : error := "Message hash is not a valid hex string.".

(** Modelled from the spec: the error of a loader that meets an unknown type
    tag or a version outside the accepted set ([verifyWalletData] of
    TLWallet, which is not among the sources). *)
Definition FormatError : error := "FormatError".

(** Modelled from the spec: the error of a loader that meets a corrupt
    payload (the constructor of WalletFromEthers, which is not among the
    sources, refuses a private key that is not 32 bytes). *)
Definition IntegrityError : error := "IntegrityError".

(** A private key: 32 bytes. *)
Definition validPrivateKey (key : Buffer) : bool :=
  (length key =? 32)%nat && forallb (fun b => (0 <=? b) && (b <? 256)) key.

Fixpoint sameBytes (a b : Buffer) : bool :=
  match a, b with
  | [], [] => true
  | x :: a', y :: b' => (x =? y) && sameBytes a' b'
  | _, _ => false
  end.

(** The JSON keystore (version 3) that the ethers library writes, as the
    record its text encodes: the address of the key, the salt of the key
    derivation, the initial counter and the ciphertext of the key, the
    authentication code and, for a wallet with a mnemonic, the counter and
    the ciphertext of its entropy. *)
Record Keystore : Type := {
  ks_address : address;
  ks_salt : Buffer;
  ks_iv : Buffer;
  ks_ciphertext : Buffer;
  ks_mac : Buffer;
  ks_mnemonic : option (Buffer * Buffer)
}.

(** Modelled from the spec: [verifyWalletData(walletData, walletType,
    expectedVersions)] of TLWallet, which is not among the sources. A loader
    rejects an unknown type or a version outside the accepted set before it
    touches the payload. *)
Definition verifyWalletData (walletData : EthersWalletData) (walletType : string)
  (expectedVersions : list Z) : result unit :=
  if negb (String.eqb (wd_type walletData) walletType) then Throw FormatError
  else if negb (existsb (Z.eqb (wd_version walletData)) expectedVersions)
       then Throw FormatError
       else Ok tt.

Section Wallet.

(** The constants of TLWallet, which is not among the sources. *)
Variable WALLET_TYPE_ETHERS : string.
Variable EXPECTED_VERSIONS : list Z.
Variable TL_WALLET_VERSION : Z.

(** The primitives of the ethers library. *)
Variable keccak256 : Buffer -> Buffer.
Variable computeAddress : Buffer -> address.
Variable signDigest : Buffer -> Buffer -> string.
Variable splitSignature : string -> ECSignature.

(** The primitives of the keystore: the slow key derivation (64 bytes from a
    password and a salt), the key stream of AES in counter mode (its byte at
    an index, for a key and an initial counter), and the mnemonic functions:
    the entropy of a phrase, the phrase of an entropy, and the private key
    derived from a phrase on the default path. *)
Variable scrypt : string -> Buffer -> Buffer.
Variable keystream : Buffer -> Buffer -> nat -> Z.
Variable mnemonicToEntropy : string -> result Buffer.
Variable entropyToMnemonic : Buffer -> string.
Variable fromMnemonic : string -> Buffer.

(** The wallet instance: the slot [walletFromEthers], empty until [loadFrom]. *)
Definition Wallet := option SigningKey.

(** Modelled from the spec: [WalletFromEthers.fromWalletData], which is not
    among the sources; the account of a container is its key pair, and a
    payload whose private key is not 32 bytes is corrupt. *)
Definition fromWalletData (walletData : EthersWalletData) : result SigningKey :=
  if validPrivateKey (privateKey (wd_signingKey walletData))
  then Ok (wd_signingKey walletData)
  else Throw IntegrityError.

(** Modelled from the spec: [toEthersWalletData] of WalletFromEthers, which is
    not among the sources; the container of an account carries the backend's
    tag, the current version, the address derived from the key, and the key. *)
Definition toEthersWalletData (w : SigningKey) : EthersWalletData :=
  {| wd_type := WALLET_TYPE_ETHERS;
     wd_version := TL_WALLET_VERSION;
     wd_address := computeAddress (privateKey w);
     wd_signingKey := w |}.

(** Modelled from the spec: [signMessage] of the ethers wallet, which is not
    among the sources; the personal-message scheme (prefix + length + payload)
    before the elliptic-curve signature. *)
Definition walletSignMessage (w : SigningKey) (message : Arrayish) : string :=
  signDigest (privateKey w) (keccak256 (personalMessage (messageBytes message))).

(** AES in counter mode: each byte is combined, by exclusive or, with the byte
    of the key stream at its index. Encryption and decryption are the same
    function. *)
Fixpoint aesCtrFrom (key iv : Buffer) (i : nat) (data : Buffer) : Buffer :=
  match data with
  | [] => []
  | d :: rest => Z.lxor d (keystream key iv i) :: aesCtrFrom key iv (S i) rest
  end.

Definition aesCtr (key iv data : Buffer) : Buffer := aesCtrFrom key iv 0 data.

(** Modelled from the spec: [encrypt] of WalletFromEthers, which is not among
    the sources; the container is encrypted under a key derived from the
    password by a slow key-derivation function. The scheme is the version-3
    JSON keystore of the ethers library: of the 64 derived bytes the first 16
    are the AES key of the private key, the next 16 the prefix of the
    authentication code (keccak-256 of prefix and ciphertext), the last 32 the
    AES key of the mnemonic's entropy. [random] is what the call draws: 32
    bytes of salt, 16 of counter, 16 of identifier, 16 of mnemonic counter. *)
Definition walletEncrypt (w : SigningKey) (password : string) (random : Buffer)
  : result Keystore :=
  if negb (length (privateKey w) =? 32)%nat then Throw "invalid private key"
  else
    let salt := firstn 32 random in
    let iv := firstn 16 (skipn 32 random) in
    let mnemonicIv := firstn 16 (skipn 64 random) in
    let key := scrypt password salt in
    let derivedKey := firstn 16 key in
    let macPrefix := firstn 16 (skipn 16 key) in
    let mnemonicKey := firstn 32 (skipn 32 key) in
    let ciphertext := aesCtr derivedKey iv (privateKey w) in
    let sealed (hidden : option (Buffer * Buffer)) :=
      {| ks_address := computeAddress (privateKey w);
         ks_salt := salt;
         ks_iv := iv;
         ks_ciphertext := ciphertext;
         ks_mac := keccak256 (macPrefix ++ ciphertext);
         ks_mnemonic := hidden |} in
    match mnemonic w with
    | None => Ok (sealed None)
    | Some phrase =>
        match mnemonicToEntropy phrase with
        | Throw e => Throw e
        | Ok entropy => Ok (sealed (Some (mnemonicIv, aesCtr mnemonicKey mnemonicIv entropy)))
        end
    end.

(** Modelled from the spec: [WalletFromEthers.fromEncryptedJson], which is not
    among the sources; the keystore is opened with the key derived from the
    password. As the ethers library does it: the authentication code is
    checked first, then the key is decrypted and must be a private key of the
    address written in the keystore, and a hidden mnemonic must derive that
    key. *)
Definition fromEncryptedJson (keystore : Keystore) (password : string)
  : result SigningKey :=
  let key := scrypt password (ks_salt keystore) in
  let derivedKey := firstn 16 key in
  let macPrefix := firstn 16 (skipn 16 key) in
  let mnemonicKey := firstn 32 (skipn 32 key) in
  if negb (sameBytes (keccak256 (macPrefix ++ ks_ciphertext keystore)) (ks_mac keystore))
  then Throw "invalid password"
  else
    let decrypted := aesCtr derivedKey (ks_iv keystore) (ks_ciphertext keystore) in
    if negb (length decrypted =? 32)%nat then Throw "invalid private key"
    else if negb (sameBytes (computeAddress decrypted) (ks_address keystore))
    then Throw "address mismatch"
    else
      match ks_mnemonic keystore with
      | None => Ok {| privateKey := decrypted; mnemonic := None |}
      | Some (mnemonicIv, mnemonicCiphertext) =>
          let phrase :=
            entropyToMnemonic (aesCtr mnemonicKey mnemonicIv mnemonicCiphertext) in
          if negb (sameBytes (fromMnemonic phrase) decrypted)
          then Throw "mnemonic mismatch"
          else Ok {| privateKey := fromMnemonic phrase; mnemonic := Some phrase |}
      end.

(** *** Accessors *)
Definition getAddress (this : Wallet) : result address :=
  match this with
  | None => Throw NoAccountLoadedError
  | Some w => Ok (computeAddress (privateKey w))
  end.

Definition getWalletData (this : Wallet) : result EthersWalletData :=
  match this with
  | None => Throw NoAccountLoadedError
  | Some w => Ok (toEthersWalletData w)
  end.

(** *** Creating instances *)

(** [loadFrom]: the result, and the wallet afterwards. *)
Definition loadFrom (this : Wallet) (walletData : EthersWalletData)
  : result unit * Wallet :=
  match verifyWalletData walletData WALLET_TYPE_ETHERS EXPECTED_VERSIONS with
  | Throw e => (Throw e, this)
  | Ok _ =>
      match fromWalletData walletData with
      | Throw e => (Throw e, this)
      | Ok walletFromEthers => (Ok tt, Some walletFromEthers)
      end
  end.

Definition encryptToSerializedKeystore (walletData : EthersWalletData)
  (password : string) (random : Buffer) : result Keystore :=
  match fromWalletData walletData with
  | Throw e => Throw e
  | Ok walletFromEthers => walletEncrypt walletFromEthers password random
  end.

Definition recoverFromEncryptedKeystore (serializedEncryptedKeystore : Keystore)
  (password : string) : result EthersWalletData :=
  match fromEncryptedJson serializedEncryptedKeystore password with
  | Throw e => Throw e
  | Ok w => Ok (toEthersWalletData w)
  end.

Definition recoverFromPrivateKey (key : Buffer) : result EthersWalletData :=
  if validPrivateKey key
  then Ok (toEthersWalletData {| privateKey := key; mnemonic := None |})
  else Throw "invalid private key".

(** *** Signing *)
Definition signMessage (this : Wallet) (message : Arrayish) : result Signature :=
  match this with
  | None => Throw NoAccountLoadedError
  | Some w =>
      let flatFormatSignature := walletSignMessage w message in
      Ok {| concatSig := flatFormatSignature;
            sigParts := splitSignature flatFormatSignature |}
  end.

Definition signMsgHash (this : Wallet) (msgHash : string) : result Signature :=
  match this with
  | None => Throw NoAccountLoadedError
  | Some _ =>
      if negb (isHexString msgHash None)
      then Throw InvalidInputError
      else
        match arrayify msgHash with
        | Throw e => Throw e
        | Ok msgHashBytes => signMessage this (Bytes msgHashBytes)
        end
  end.

End Wallet.

End EthersWallet.

(** ** EthersWallet: the operations that reach the provider *)
Module WalletOperations.
Import EthersWallet.

(** A quantity of a raw transaction: a bignumber.js instance, kept as the
    string its [toString()] gives, or the plain number or string put there. *)
Inductive quantity : Type :=
| QBigNumber (shown : string)
| QNumber (n : number)
| QString (s : string).

(** [q instanceof BigNumber ? q.toString() : q]. *)
Definition plain (q : quantity) : string + number :=
  match q with
  | QBigNumber shown => inl shown
  | QNumber n => inr n
  | QString s => inl s
  end.

Record RawTxObject : Type := {
  tx_data : string;
  tx_gasLimit : quantity;
  tx_gasPrice : quantity;
  tx_nonce : Z;
  tx_to : string;
  tx_value : quantity
}.

(** The transaction handed to the ethers wallet's [sign]. *)
Record TransactionRequest : Type := {
  req_data : string;
  req_gasLimit : Z;
  req_gasPrice : Z;
  req_nonce : Z;
  req_to : string;
  req_value : Z
}.

Record TxInfos : Type := {
  info_nonce : Z;
  info_gasPrice : Z;
  info_balance : Z
}.

(** The calls made to the provider, as they are logged. *)
Inductive ProviderCall : Type :=
| CallSendSignedTransaction (signedTransaction : string)
| CallFetchEndpoint (endpoint : string)
| CallGetTxInfos (userAddress : string).

Record Provider : Type := {
  sendSignedTransaction : string -> result string;
  fetchEndpoint : string -> result string;
  getTxInfos : string -> result TxInfos
}.

Definition IO (A : Type) : Type := list ProviderCall -> result A * list ProviderCall.

Section Operations.
Variable provider : Provider.

(** The primitives of the ethers library: [bigNumberify] and the wallet's
    [sign]. *)
Variable bigNumberify : string + number -> result Z.
Variable signTransaction : Buffer -> TransactionRequest -> result string.

(** *** Signing *)
Definition confirm (this : Wallet) (rawTx : RawTxObject) : IO string :=
  fun log =>
    match this with
    | None => (Throw NoAccountLoadedError, log)
    | Some w =>
        match bigNumberify (plain (tx_gasLimit rawTx)) with
        | Throw e => (Throw e, log)
        | Ok limit =>
            match bigNumberify (plain (tx_gasPrice rawTx)) with
            | Throw e => (Throw e, log)
            | Ok price =>
                match bigNumberify (plain (tx_value rawTx)) with
                | Throw e => (Throw e, log)
                | Ok amount =>
                    match signTransaction (privateKey w)
                            {| req_data := tx_data rawTx;
                               req_gasLimit := limit;
                               req_gasPrice := price;
                               req_nonce := tx_nonce rawTx;
                               req_to := tx_to rawTx;
                               req_value := amount |} with
                    | Throw e => (Throw e, log)
                    | Ok signedTransaction =>
                        (sendSignedTransaction provider signedTransaction,
                         log ++ [CallSendSignedTransaction signedTransaction])
                    end
                end
            end
        end
    end.

End Operations.

End WalletOperations.

(** * The vocabulary of the properties *)

(** ** Objects that agree on the hashed properties *)
Module HasherSpec.
Import EthABI.

(** The [uint256] entry of [orderParts] for an integer field. *)
Definition uintPart (n : Z) : part := Uint256 (toNumber n).

Definition sameHashedFields (obj obj' : jsobject) : Prop :=
  forall k, In k hashedFields -> prop obj' k = prop obj k.

End HasherSpec.

(** ** Calls, legs and contract-call arguments of the Exchange *)
Module ExchangeSpec.
Import Exchange.

(** The spec's name for the rejection of [prepTakeOrder] on a missing route. *)
Definition RouteNotFoundError : error := "Could not find a path with enough capacity".

(** Calls that resolve a route. *)
Definition isRouteCall (ev : Event) : bool :=
  match ev with
  | CallIsNetwork _ | CallGetPath _ _ _ _ _ => true
  | _ => false
  end.

(** Calls that only read: neither a signature, nor the preparation of a
    transaction, nor a submission. *)
Definition isLookup (ev : Event) : bool :=
  match ev with
  | CallGetDecimals _ | CallIsNetwork _ | CallGetPath _ _ _ _ _ => true
  | _ => false
  end.

Definition isPrepCall (ev : Event) : bool :=
  match ev with
  | CallPrepFuncTx _ _ _ _ _ _ _ => true
  | _ => false
  end.

(** The arguments and the gas limit of the contract call of a fill. *)
Definition takeOrderArgs (env : Env) (signedOrder : Order) (fill : string)
  (takerDecimals : Z) (mp tp : PathObj) (sg : ECSignature) : list txArg :=
  [ ArgAddresses [ maker signedOrder; ZERO_ADDRESS; makerTokenAddress signedOrder;
                   takerTokenAddress signedOrder; ZERO_ADDRESS ];
    ArgNumbers [ toInt (raw (makerTokenAmount signedOrder));
                 toInt (raw (takerTokenAmount signedOrder));
                 Finite 0; Finite 0;
                 toInt (expirationUnixTimestampSec signedOrder);
                 toInt (salt signedOrder) ];
    ArgInteger (calcRaw env fill takerDecimals);
    ArgAddresses (pathArgument (path mp));
    ArgAddresses (pathArgument (path tp));
    ArgNumber (sig_v sg);
    ArgString (sig_r sg);
    ArgString (sig_s sg) ].

(** The arguments of the contract call of a cancellation. *)
Definition cancelOrderArgs (env : Env) (signedOrder : Order) (cancelValue : string)
  (takerDecimals : Z) (sg : ECSignature) : list txArg :=
  [ ArgAddresses [ maker signedOrder; ZERO_ADDRESS; makerTokenAddress signedOrder;
                   takerTokenAddress signedOrder; ZERO_ADDRESS ];
    ArgNumbers [ toInt (raw (makerTokenAmount signedOrder));
                 toInt (raw (takerTokenAmount signedOrder));
                 Finite 0; Finite 0;
                 toInt (expirationUnixTimestampSec signedOrder);
                 toInt (salt signedOrder) ];
    ArgInteger (calcRaw env cancelValue takerDecimals);
    ArgNumber (sig_v sg);
    ArgString (sig_r sg);
    ArgString (sig_s sg) ].

Definition takeOrderLimit (mp tp : PathObj) : option Q :=
  Some (inject_Z (estimatedGas tp + estimatedGas mp) * (3 # 2))%Q.

(** The result of a fill that reaches the contract call: what the
    preparation of the transaction answers, with the routes of the two legs. *)
Definition takeOrderResult (env : Env) (signedOrder : Order) (fill : string)
  (options : ExchangeOptions) (takerDecimals : Z) (mp tp : PathObj)
  (sg : ECSignature) : result TakeOrderTx :=
  match prepFuncTx env (user_address env) (exchangeContractAddress signedOrder)
          "Exchange" "fillOrderTrustlines"
          (takeOrderArgs env signedOrder fill takerDecimals mp tp sg)
          (gasPrice options) (takeOrderLimit mp tp) with
  | Ok tx => Ok {| take_rawTx := rawTx tx;
                   take_ethFees := ethFees tx;
                   makerMaxFees := maxFees mp;
                   makerPath := path mp;
                   takerMaxFees := maxFees tp;
                   takerPath := path tp |}
  | Throw e => Throw e
  end.

Section Legs.
Variable env : Env.

(** The two legs of a fill, as [prepTakeOrder] asks for them. *)
Definition makerLeg (signedOrder : Order) (fill : string) (makerDecimals : Z)
  : Async PathObj :=
  getPathObj env (makerTokenAddress signedOrder) (maker signedOrder)
    (user_address env)
    (getPartialAmount env fill (value (takerTokenAmount signedOrder))
       (value (makerTokenAmount signedOrder)))
    makerDecimals.

Definition takerLeg (signedOrder : Order) (fill : string) (takerDecimals : Z)
  : Async PathObj :=
  getPathObj env (takerTokenAddress signedOrder) (user_address env)
    (maker signedOrder) fill takerDecimals.

(** The calls of a fill up to the test of the routes: the two lookups of
    decimals, then the calls of the two legs in turns. *)
Definition lookupCalls (signedOrder : Order) (fill : string) (md td : Z)
  : list Event :=
  [ CallGetDecimals (makerTokenAddress signedOrder);
    CallGetDecimals (takerTokenAddress signedOrder) ] ++
  inTurns [ snd (makerLeg signedOrder fill md []);
            snd (takerLeg signedOrder fill td []) ].

End Legs.

End ExchangeSpec.

(** ** Signatures and containers of the wallet *)
Module WalletSpec.
Import EthersWallet.

Section Signing.
Variable keccak256 : Buffer -> Buffer.
Variable signDigest : Buffer -> Buffer -> string.
Variable splitSignature : string -> ECSignature.

(** The signature of a payload under the personal-message scheme. *)
Definition personalSignature (w : SigningKey) (payload : Buffer) : Signature :=
  let flat := signDigest (privateKey w)
                (keccak256 (messagePrefix ++ lengthBytes (length payload) ++ payload)) in
  {| concatSig := flat; sigParts := splitSignature flat |}.

End Signing.

(** The container [wd] with another payload. *)
Definition withKey (wd : EthersWalletData) (key : SigningKey) : EthersWalletData :=
  {| wd_type := wd_type wd; wd_version := wd_version wd;
     wd_address := wd_address wd; wd_signingKey := key |}.

End WalletSpec.

(** ** The order a [makeOrder] assembles *)
Module MakeOrderSpec.
Import Exchange.

Section Assembly.
Variable env : Env.

(** The order [getFees] resolves to. *)
Definition feesApplied (order : Order) : Order :=
  {| exchangeContractAddress := exchangeContractAddress order;
     maker := maker order;
     taker := taker order;
     makerTokenAddress := makerTokenAddress order;
     takerTokenAddress := takerTokenAddress order;
     feeRecipient := ZERO_ADDRESS;
     makerTokenAmount := makerTokenAmount order;
     takerTokenAmount := takerTokenAmount order;
     makerFee := formatAmount env "0" 2;
     takerFee := formatAmount env "0" 2;
     expirationUnixTimestampSec := expirationUnixTimestampSec order;
     salt := salt order;
     ecSignature := ecSignature order;
     hash := hash order |}.

(** The order literal of [makeOrder], for the decimals it was given. *)
Definition assembledOrder (random : dyadic)
  (exchangeAddress makerToken takerToken : address)
  (makerTokenValue takerTokenValue : string) (options : ExchangeOptions)
  (makerDecimals takerDecimals : Z) : Order :=
  {| exchangeContractAddress := exchangeAddress;
     expirationUnixTimestampSec :=
       toString (match expirationOption options with
                 | Some t => t
                 | None => defaultExpiration
                 end);
     feeRecipient := ZERO_ADDRESS;
     maker := user_address env;
     makerFee := formatAmount env "0" makerDecimals;
     makerTokenAddress := toChecksumAddress makerToken;
     makerTokenAmount := formatAmount env makerTokenValue makerDecimals;
     salt := newSalt random;
     taker := ZERO_ADDRESS;
     takerFee := formatAmount env "0" makerDecimals;
     takerTokenAddress := toChecksumAddress takerToken;
     takerTokenAmount := formatAmount env takerTokenValue takerDecimals;
     ecSignature := None;
     hash := None |}.

End Assembly.

(** The options with another gas limit. *)
Definition setGasLimit (limit : option Q) (options : ExchangeOptions) : ExchangeOptions :=
  {| gasLimit := limit;
     gasPrice := gasPrice options;
     makerTokenDecimals := makerTokenDecimals options;
     takerTokenDecimals := takerTokenDecimals options;
     expirationOption := expirationOption options |}.

(** Calls that sign or submit. *)
Definition isSubmission (ev : Event) : bool :=
  match ev with
  | CallSignMsgHash _ | CallSignTx _ | CallRelayTx _ | CallPost _ _ => true
  | _ => false
  end.

(** The gas limit and the gas price a logged contract call carries. *)
Definition callLimit (ev : Event) : option (option Q) :=
  match ev with
  | CallPrepFuncTx _ _ _ _ _ _ limit => Some limit
  | _ => None
  end.

Definition callPrice (ev : Event) : option (option Q) :=
  match ev with
  | CallPrepFuncTx _ _ _ _ _ price _ => Some price
  | _ => None
  end.

End MakeOrderSpec.

(** ** Test doubles

    Stand-ins for the primitives and collaborators, in the manner of the
    repository's [FakeEthLightwallet] and [FakeUtils], to run the definitions
    on concrete inputs. *)
Module Fakes.

(** A 32-byte digest: the low 32 bytes of the input read as a number. *)
Definition fakeKeccak (b : Buffer) : Buffer := be_bytes 32 (be_value b + 1).

Definition addr (b : Z) : address := repeat b 20%nat.

Definition amount (n : Z) (d : Z) : Amount :=
  {| decimals := d; raw := toString n; value := "" |}.

(** An order object with its properties in the order [makeOrder] writes them. *)
Definition sampleObject : jsobject :=
  [ ("exchangeContractAddress", JAddress (addr 1));
    ("expirationUnixTimestampSec", JDecimal (toString 2524604400));
    ("feeRecipient", JAddress ZERO_ADDRESS);
    ("maker", JAddress (addr 2));
    ("makerFee", JAmount (amount 0 2));
    ("makerTokenAddress", JAddress (addr 3));
    ("makerTokenAmount", JAmount (amount 100 2));
    ("salt", JDecimal (toString 123456789));
    ("taker", JAddress ZERO_ADDRESS);
    ("takerFee", JAmount (amount 0 2));
    ("takerTokenAddress", JAddress (addr 4));
    ("takerTokenAmount", JAmount (amount 50 4)) ]%string.

Definition sampleOrder : Order :=
  {| exchangeContractAddress := addr 1;
     maker := addr 2;
     taker := ZERO_ADDRESS;
     makerTokenAddress := addr 3;
     takerTokenAddress := addr 4;
     feeRecipient := ZERO_ADDRESS;
     makerTokenAmount := amount 100 2;
     takerTokenAmount := amount 50 4;
     makerFee := amount 0 2;
     takerFee := amount 0 2;
     expirationUnixTimestampSec := toString 2524604400;
     salt := toString 123456789;
     ecSignature := None;
     hash := None |}.

(** The same order with a maker amount of 2^53 + 1. *)
Definition unsafeOrder : Order :=
  {| exchangeContractAddress := addr 1;
     maker := addr 2;
     taker := ZERO_ADDRESS;
     makerTokenAddress := addr 3;
     takerTokenAddress := addr 4;
     feeRecipient := ZERO_ADDRESS;
     makerTokenAmount := amount 9007199254740993 2;
     takerTokenAmount := amount 50 4;
     makerFee := amount 0 2;
     takerFee := amount 0 2;
     expirationUnixTimestampSec := toString 2524604400;
     salt := toString 123456789;
     ecSignature := None;
     hash := None |}.

(** The sample order with another taker fee. *)
Definition withTakerFee (n : Z) : Order :=
  {| exchangeContractAddress := addr 1;
     maker := addr 2;
     taker := ZERO_ADDRESS;
     makerTokenAddress := addr 3;
     takerTokenAddress := addr 4;
     feeRecipient := ZERO_ADDRESS;
     makerTokenAmount := amount 100 2;
     takerTokenAmount := amount 50 4;
     makerFee := amount 0 2;
     takerFee := amount n 2;
     expirationUnixTimestampSec := toString 2524604400;
     salt := toString 123456789;
     ecSignature := None;
     hash := None |}.

End Fakes.

(** A relay double: every lookup resolves; [network] says which tokens are
    currency networks and [route] which path the path finder returns. *)
Module FakeExchange.
Import Exchange Fakes.

Definition fakeEnv (network : address -> bool) (route : address -> list address) : Env :=
  {| user_address := addr 9;
     user_signMsgHash := fun _ => Ok {| sig_r := "0x01"; sig_s := "0x02"; sig_v := 27 |};
     user_signTx := fun tx => Ok tx;
     getDecimals := fun _ given => Ok (match given with Some d => d | None => 2 end);
     isNetwork := fun token => Ok (network token);
     getPath := fun token _ _ _ _ =>
       Ok {| path := route token; maxFees := FeesNumber 1;
             estimatedGas := 100000; isNoNetwork := false |};
     prepFuncTx := fun _ _ _ _ _ _ _ => Ok {| rawTx := "0xf8"; ethFees := amount 1 18 |};
     relayTx := fun signedTx => Ok signedTx;
     fetchUrl := fun _ _ => Ok tt;
     formatAmount := fun v d => {| decimals := d; raw := toString 100; value := v |};
     calcRaw := fun _ _ => toString 100;
     timesDividedBy := fun numerator _ _ => numerator |}.

Definition noOptions : ExchangeOptions :=
  {| gasLimit := None; gasPrice := None; makerTokenDecimals := None;
     takerTokenDecimals := None; expirationOption := None |}.

Definition signedSample : Order :=
  withSignature sampleOrder {| sig_r := "0x01"; sig_s := "0x02"; sig_v := 27 |}.

(** The token at [addr 4] (the taker token of the sample) has no route. *)
Definition routeButFor4 (token : address) : list address :=
  if hd 0 token =? 4 then [] else [addr 2; addr 9].

(** The token at [addr 3] (the maker token of the sample) is no network. *)
Definition networkButFor3 (token : address) : bool := negb (hd 0 token =? 3).

End FakeExchange.

(** A wallet double: the signature of a digest is the hex of key and digest. *)
Module FakeWallet.
Import EthersWallet.

Definition fakeSign (key digest : Buffer) : string := bufferToHex (key ++ digest).

Definition fakeSplit (flat : string) : ECSignature :=
  {| sig_r := flat; sig_s := flat; sig_v := 27 |}.

Definition fakeAddress (key : Buffer) : address := setLengthLeft key 20.

(** A key derivation double: 64 bytes, the salt shifted by the length of the
    password; a key stream double: the bytes of key and counter. *)
Definition fakeScrypt (password : string) (salt : Buffer) : Buffer :=
  map (fun b => (b + Z.of_nat (String.length password)) mod 256)
      (firstn 64 (salt ++ repeat 0 64)).

Definition fakeKeystream (key iv : Buffer) (i : nat) : Z := nth i (key ++ iv) 90.

Definition fakeMnemonicToEntropy (phrase : string) : result Buffer :=
  Ok (toUtf8Bytes phrase).

Definition fakeEntropyToMnemonic (entropy : Buffer) : string := bufferToHex entropy.

Definition fakeFromMnemonic (phrase : string) : Buffer :=
  setLengthLeft (toUtf8Bytes phrase) 32.

Definition fakeKey (b : Z) : SigningKey :=
  {| privateKey := repeat b 32%nat; mnemonic := None |}.

Definition fakeData (tag : string) (version : Z) (b : Z) : EthersWalletData :=
  {| wd_type := tag; wd_version := version;
     wd_address := fakeAddress (repeat b 32%nat); wd_signingKey := fakeKey b |}.

(** A container with a mnemonic, and the key that the mnemonic derives. *)
Definition seededData : EthersWalletData :=
  let key := fakeFromMnemonic (fakeEntropyToMnemonic (toUtf8Bytes "seed")) in
  {| wd_type := "ethers"; wd_version := 1;
     wd_address := fakeAddress key;
     wd_signingKey := {| privateKey := key; mnemonic := Some "seed"%string |} |}.

(** A container whose private key is one byte short. *)
Definition corruptData : EthersWalletData :=
  {| wd_type := "ethers"; wd_version := 1;
     wd_address := fakeAddress (repeat 8 31%nat);
     wd_signingKey := {| privateKey := repeat 8 31%nat; mnemonic := None |} |}.

End FakeWallet.

(** A provider double: it accepts every transaction and answers every
    endpoint with the same balance. *)
Module FakeProvider.
Import EthersWallet WalletOperations.

Definition fakeProvider : Provider :=
  {| sendSignedTransaction := fun signedTransaction => Ok signedTransaction;
     fetchEndpoint := fun _ => Ok "1000"%string;
     getTxInfos := fun _ => Ok {| info_nonce := 5; info_gasPrice := 1; info_balance := 1000 |} |}.

(** Only strings of hex digits behind [0x] become a big number. *)
Definition fakeBigNumberify (v : string + number) : result Z :=
  match v with
  | inl s => match arrayify s with
             | Ok bytes => Ok (be_value bytes)
             | Throw e => Throw e
             end
  | inr (Finite z) => Ok z
  | inr (Infinity _) => Throw "overflow"
  end.

Definition fakeSignTransaction (key : Buffer) (request : TransactionRequest)
  : result string :=
  Ok (bufferToHex (key ++ [req_gasLimit request; req_gasPrice request;
                           req_nonce request; req_value request])).

Definition sampleRawTx : RawTxObject :=
  {| tx_data := "0x7f";
     tx_gasLimit := QNumber (Finite 100);
     tx_gasPrice := QBigNumber "0x0a";
     tx_nonce := 5;
     tx_to := "0xf8";
     tx_value := QString "0x01" |}.

End FakeProvider.

(** * Properties *)

(** ** Big-endian words *)

Lemma be_bytes_length (w : nat) (n : Z) : length (be_bytes w n) = w.
Proof. induction w as [|w IH]; simpl; [reflexivity | now rewrite IH]. Qed.

Lemma be_bytes_isByte (w : nat) (n : Z) : Forall isByte (be_bytes w n).
Proof.
  induction w as [|w IH]; simpl; constructor; [|exact IH].
  unfold isByte. apply Z.mod_pos_bound. lia.
Qed.

Lemma be_value_from_be_bytes (w : nat) (acc n : Z) :
  be_value_from acc (be_bytes w n) = acc * 256 ^ Z.of_nat w + n mod 256 ^ Z.of_nat w.
Proof.
  revert acc. induction w as [|w IH]; intros acc.
  - simpl. rewrite Z.mod_1_r. lia.
  - cbn [be_bytes be_value_from]. rewrite IH.
    rewrite Nat2Z.inj_succ, Z.pow_succ_r by lia.
    rewrite (Z.mul_comm 256 (256 ^ Z.of_nat w)).
    rewrite (Z.rem_mul_r n (256 ^ Z.of_nat w) 256) by lia.
    ring.
Qed.

(** A word of [w] bytes is read back as the number it was written from. *)
Lemma be_value_be_bytes (w : nat) (n : Z) :
  0 <= n < 256 ^ Z.of_nat w -> be_value (be_bytes w n) = n.
Proof.
  intros H. unfold be_value. rewrite be_value_from_be_bytes.
  rewrite Z.mod_small by exact H. lia.
Qed.

Lemma setLengthLeft_exact (a : Buffer) (len : nat) :
  length a = len -> setLengthLeft a len = a.
Proof.
  intros H. unfold setLengthLeft. rewrite H, Nat.ltb_irrefl, Nat.sub_diag.
  reflexivity.
Qed.

(** ** Rounding to a double *)

Lemma round53_small (m : Z) : 0 <= m < 2 ^ 53 -> round53 m = m.
Proof.
  intros [H0 H1]. unfold round53.
  assert (Hl : Z.log2 m < 53).
  { destruct (Z.eq_dec m 0) as [->|Hne]; [reflexivity|].
    apply Z.log2_lt_pow2; lia. }
  apply Z.ltb_lt in Hl. now rewrite Hl.
Qed.

Lemma round53_large (m : Z) : 2 ^ 53 <= m -> 2 ^ 53 <= round53 m.
Proof.
  intros H. unfold round53.
  assert (Hm : 0 < m) by (assert (0 < 2 ^ 53) by (apply Z.pow_pos_nonneg; lia); lia).
  assert (Hl : 53 <= Z.log2 m) by (apply Z.log2_le_pow2; lia).
  destruct (Z.ltb_spec (Z.log2 m) 53) as [Hlt|_]; [lia|].
  set (d := Z.log2 m - 52).
  assert (Hd : 1 <= d) by (unfold d; lia).
  assert (Hpd : 0 < 2 ^ d) by (apply Z.pow_pos_nonneg; lia).
  assert (Hq : 2 ^ 52 <= m / 2 ^ d).
  { apply Z.div_le_lower_bound; [exact Hpd|].
    rewrite <- Z.pow_add_r by lia.
    replace (d + 52) with (Z.log2 m) by (unfold d; lia).
    apply Z.log2_spec. exact Hm. }
  assert (H2d : 2 <= 2 ^ d).
  { change 2 with (2 ^ 1) at 1. apply Z.pow_le_mono_r; lia. }
  assert (Hge : 2 ^ 52 * 2 <= (m / 2 ^ d) * 2 ^ d) by nia.
  change (2 ^ 53) with (2 ^ 52 * 2).
  destruct ((2 ^ (d - 1) <? m mod 2 ^ d) || ((m mod 2 ^ d =? 2 ^ (d - 1)) && Z.odd (m / 2 ^ d))); nia.
Qed.

(** Rounding moves a number by at most half of the last kept bit. *)
Lemma round53_upper (m : Z) :
  53 <= Z.log2 m -> round53 m <= m + 2 ^ (Z.log2 m - 53).
Proof.
  intros Hl. unfold round53.
  destruct (Z.ltb_spec (Z.log2 m) 53) as [Hlt|_]; [lia|].
  set (d := Z.log2 m - 52).
  replace (Z.log2 m - 53) with (d - 1) by (unfold d; lia).
  assert (Hd : 1 <= d) by (unfold d; lia).
  assert (Hpd : 0 < 2 ^ d) by (apply Z.pow_pos_nonneg; lia).
  assert (Hh : 2 ^ d = 2 * 2 ^ (d - 1)).
  { replace d with (Z.succ (d - 1)) at 1 by lia. apply Z.pow_succ_r. lia. }
  assert (Hph : 0 < 2 ^ (d - 1)) by (apply Z.pow_pos_nonneg; lia).
  pose proof (Z.div_mod m (2 ^ d) ltac:(lia)) as Hdm.
  pose proof (Z.mod_pos_bound m (2 ^ d) Hpd) as Hr.
  destruct (Z.ltb_spec (2 ^ (d - 1)) (m mod 2 ^ d)) as [Hgt|Hle]; cbn [orb].
  - nia.
  - destruct (Z.eqb_spec (m mod 2 ^ d) (2 ^ (d - 1))) as [Heq|Hne]; cbn [andb].
    + destruct (Z.odd (m / 2 ^ d)); nia.
    + nia.
Qed.

Lemma toNumber_safe (n : Z) : 0 <= n < 2 ^ 53 -> toNumber n = Finite n.
Proof.
  intros H. unfold toNumber.
  rewrite Z.abs_eq by lia. rewrite round53_small by exact H.
  assert (Hlt : n < 2 ^ 1024).
  { apply Z.lt_trans with (2 ^ 53); [lia|]. apply Z.pow_lt_mono_r; lia. }
  destruct (Z.leb_spec (2 ^ 1024) n) as [Hge|_]; [lia|].
  f_equal. destruct (Z.eq_dec n 0) as [->|Hne]; [reflexivity|].
  rewrite Z.sgn_pos by lia. lia.
Qed.

(** No integer of magnitude 2^53 or more becomes a number below 2^53. *)
Lemma toNumber_unsafe (n : Z) :
  2 ^ 53 <= Z.abs n ->
  EthABI.BN_initNumber (toNumber n) = Throw "Assertion failed".
Proof.
  intros H. unfold toNumber.
  pose proof (round53_large (Z.abs n) H) as Hr.
  destruct (2 ^ 1024 <=? round53 (Z.abs n)); [reflexivity|].
  unfold EthABI.BN_initNumber.
  assert (Hp : 0 < 2 ^ 53) by (apply Z.pow_pos_nonneg; lia).
  assert (Habs : Z.abs (Z.sgn n * round53 (Z.abs n)) = round53 (Z.abs n)).
  { destruct (Z.sgn_spec n) as [[Hn ->]|[[Hn ->]|[Hn ->]]].
    - rewrite Z.mul_1_l. apply Z.abs_eq. lia.
    - subst n. simpl in H. lia.
    - rewrite Z.mul_opp_l, Z.mul_1_l, Z.abs_opp. apply Z.abs_eq. lia. }
  rewrite Habs.
  destruct (Z.ltb_spec (round53 (Z.abs n)) (2 ^ 53)); [lia|reflexivity].
Qed.

Lemma toNumber_small (n : Z) : Z.abs n < 2 ^ 53 -> toNumber n = Finite n.
Proof.
  intros H. unfold toNumber.
  rewrite round53_small by (split; [apply Z.abs_nonneg | exact H]).
  assert (Hlt : 2 ^ 53 < 2 ^ 1024) by (apply Z.pow_lt_mono_r; lia).
  destruct (Z.leb_spec (2 ^ 1024) (Z.abs n)) as [Hge|_]; [lia|].
  f_equal. destruct (Z.sgn_spec n) as [[Hn ->]|[[Hn ->]|[Hn ->]]]; lia.
Qed.

(** ** The ABI packer on the parts of an order *)
Module HasherFacts.
Import EthABI Hasher HasherSpec.

Lemma packOne_address (a : address) :
  isAddress a -> packOne (Address a) = Ok a.
Proof.
  intros [Hlen _]. simpl. now rewrite setLengthLeft_exact.
Qed.

(** A [uint256] part built from an integer: its 32-byte word when the
    magnitude is below 2^53, the big-number constructor's refusal otherwise. *)
Lemma packOne_uint (n : Z) :
  packOne (Uint256 (toNumber n)) =
  if Z.abs n <? 2 ^ 53 then Ok (be_bytes 32 (Z.abs n)) else Throw "Assertion failed".
Proof.
  destruct (Z.ltb_spec (Z.abs n) (2 ^ 53)) as [Hlt|Hge].
  - rewrite toNumber_small by exact Hlt.
    unfold packOne, parseNumber, BN_initNumber.
    apply Z.ltb_lt in Hlt as Hb. rewrite Hb.
    assert (Hbits : bitLength n <= 53).
    { unfold bitLength. destruct (Z.eqb_spec (Z.abs n) 0) as [_|Hne]; [lia|].
      assert (Z.log2 (Z.abs n) < 53); [|lia].
      apply Z.log2_lt_pow2; [pose proof (Z.abs_nonneg n); lia | exact Hlt]. }
    destruct (Z.ltb_spec 256 (bitLength n)); [lia|reflexivity].
  - unfold packOne, parseNumber. now rewrite toNumber_unsafe.
Qed.

Lemma solidityPack_app (ps qs : list part) :
  solidityPack (ps ++ qs) =
  match solidityPack ps with
  | Throw e => Throw e
  | Ok b =>
      match solidityPack qs with
      | Throw e => Throw e
      | Ok c => Ok (b ++ c)
      end
  end.
Proof.
  induction ps as [|p ps IH]; simpl.
  - destruct (solidityPack qs); reflexivity.
  - destruct (packOne p) as [b|e]; [|reflexivity].
    rewrite IH. destruct (solidityPack ps) as [bs|e]; [|reflexivity].
    destruct (solidityPack qs) as [c|e]; [|reflexivity].
    now rewrite app_assoc.
Qed.

Lemma pack_addresses (l : list address) :
  Forall isAddress l -> solidityPack (map Address l) = Ok (concat l).
Proof.
  induction 1 as [|a l Ha _ IH]; [reflexivity|].
  cbn [map solidityPack concat]. rewrite packOne_address by exact Ha.
  now rewrite IH.
Qed.

Lemma pack_uints_safe (l : list Z) :
  Forall (fun n => 0 <= n < 2 ^ 53) l ->
  solidityPack (map uintPart l) = Ok (concat (map (be_bytes 32) l)).
Proof.
  induction 1 as [|n l Hn _ IH]; [reflexivity|].
  cbn [map solidityPack concat]. unfold uintPart at 1. rewrite packOne_uint.
  rewrite Z.abs_eq by lia.
  destruct (Z.ltb_spec n (2 ^ 53)); [|lia].
  now rewrite IH.
Qed.

Lemma pack_uints_unsafe (l : list Z) :
  Exists (fun n => 2 ^ 53 <= Z.abs n) l ->
  solidityPack (map uintPart l) = Throw "Assertion failed".
Proof.
  induction 1 as [n l Hn|n l _ IH];
    cbn [map solidityPack]; unfold uintPart at 1; rewrite packOne_uint.
  - destruct (Z.ltb_spec (Z.abs n) (2 ^ 53)); [lia|reflexivity].
  - destruct (Z.abs n <? 2 ^ 53); [|reflexivity]. now rewrite IH.
Qed.

Lemma orderParts_split (order : Order) :
  orderParts order =
  map Address (addressFields order) ++ map uintPart (uintFields order).
Proof. reflexivity. Qed.

Lemma packedOrder_split (order : Order) :
  packedOrder order =
  concat (addressFields order) ++ concat (map (be_bytes 32) (uintFields order)).
Proof.
  unfold packedOrder, addressFields, uintFields. cbn [concat map].
  rewrite !app_nil_r, <- !app_assoc. reflexivity.
Qed.

Lemma solidityPack_wellFormed (order : Order) :
  wellFormed order -> solidityPack (orderParts order) = Ok (packedOrder order).
Proof.
  intros [Ha Hu]. rewrite orderParts_split, solidityPack_app.
  rewrite pack_addresses by exact Ha. rewrite pack_uints_safe by exact Hu.
  now rewrite packedOrder_split.
Qed.

Lemma packedOrder_length (order : Order) :
  Forall isAddress (addressFields order) -> length (packedOrder order) = 312%nat.
Proof.
  intros Ha. unfold addressFields in Ha.
  repeat match goal with
         | H : Forall _ (_ :: _) |- _ => apply Forall_cons_iff in H; destruct H as [[? _] H]
         end.
  unfold packedOrder. rewrite !length_app, !be_bytes_length. lia.
Qed.

(** *** Objects that agree on the hashed properties *)

Lemma prop_Permutation (obj obj' : jsobject) (k : string) :
  NoDup (map fst obj) -> Permutation obj obj' -> prop obj' k = prop obj k.
Proof.
  intros Hnd Hp. induction Hp as [|[k1 v1] l l' Hp IH|[k1 v1] [k2 v2] l|l l' l'' H1 IH1 H2 IH2].
  - reflexivity.
  - simpl. inversion Hnd; subst. rewrite IH by assumption. reflexivity.
  - simpl. destruct (String.eqb_spec k2 k) as [E2|N2];
      destruct (String.eqb_spec k1 k) as [E1|N1]; try reflexivity.
    subst. inversion Hnd as [|? ? Hnin _]; subst. exfalso. apply Hnin.
    simpl. now left.
  - rewrite IH2, IH1; [reflexivity|assumption|].
    eapply Permutation_NoDup; [|exact Hnd]. now apply Permutation_map.
Qed.

Lemma reordered_sameHashedFields (obj obj' : jsobject) :
  NoDup (map fst obj) -> Permutation obj obj' -> sameHashedFields obj obj'.
Proof. intros Hnd Hp k _. now apply prop_Permutation. Qed.

Lemma sameHashedFields_orderParts (obj obj' : jsobject) (order : Order) :
  sameHashedFields obj obj' -> asOrder obj = Some order ->
  exists order', asOrder obj' = Some order' /\ orderParts order' = orderParts order.
Proof.
  intros Hs Ho. unfold asOrder, propAddress, propAmount, propDecimal in *.
  rewrite !Hs by (unfold hashedFields; simpl; tauto).
  repeat match type of Ho with
         | context [match prop obj ?k with _ => _ end] =>
             destruct (prop obj k) as [[]|]; try discriminate
         end.
  injection Ho as <-. eexists. split; reflexivity.
Qed.

End HasherFacts.

Ltac solve_Forall :=
  repeat (apply Forall_cons || apply Forall_nil);
  try (unfold Hasher.isAddress; split; [reflexivity|]);
  repeat (apply Forall_cons || apply Forall_nil);
  try (unfold isByte; vm_compute; split; congruence).

(** ** The order hash *)

(** C1. For every well-formed order the hash is the 0x-hex of keccak-256 over
    the concatenation, with nothing in between, of the six addresses (20 bytes
    each) and the six unsigned integers (32 bytes each, big-endian, each read
    back as the field it encodes), in the fixed order of the schema: 312 bytes.
    The result is a function of those twelve properties alone: an object that
    agrees on them, and in particular the same properties set in another
    order, hashes to the same digest. *)
Theorem order_hash_twelve_fields
  (keccak256 : Buffer -> Buffer) (obj : jsobject) (order : Order) :
  asOrder obj = Some order ->
  Hasher.wellFormed order ->
  Hasher.getOrderHashHexOf keccak256 obj =
    Some (Ok (bufferToHex (keccak256 (Hasher.packedOrder order)))) /\
  Hasher.packedOrder order =
    exchangeContractAddress order ++ maker order ++ taker order ++
    makerTokenAddress order ++ takerTokenAddress order ++ feeRecipient order ++
    be_bytes 32 (BigNumber (raw (makerTokenAmount order))) ++
    be_bytes 32 (BigNumber (raw (takerTokenAmount order))) ++
    be_bytes 32 (BigNumber (raw (makerFee order))) ++
    be_bytes 32 (BigNumber (raw (takerFee order))) ++
    be_bytes 32 (BigNumber (expirationUnixTimestampSec order)) ++
    be_bytes 32 (BigNumber (salt order)) /\
  length (Hasher.packedOrder order) = 312%nat /\
  Forall (fun a => length a = 20%nat) (Hasher.addressFields order) /\
  Forall (fun n => length (be_bytes 32 n) = 32%nat /\ be_value (be_bytes 32 n) = n)
         (Hasher.uintFields order) /\
  (forall obj', HasherSpec.sameHashedFields obj obj' ->
     Hasher.getOrderHashHexOf keccak256 obj' = Hasher.getOrderHashHexOf keccak256 obj) /\
  (forall obj', NoDup (map fst obj) -> Permutation obj obj' ->
     Hasher.getOrderHashHexOf keccak256 obj' = Hasher.getOrderHashHexOf keccak256 obj).
Proof.
  intros Hobj Hwf.
  assert (Hsame : forall obj', HasherSpec.sameHashedFields obj obj' ->
            Hasher.getOrderHashHexOf keccak256 obj' =
            Hasher.getOrderHashHexOf keccak256 obj).
  { intros obj' Hs.
    destruct (HasherFacts.sameHashedFields_orderParts obj obj' order Hs Hobj)
      as (order' & Hobj' & Hparts).
    unfold Hasher.getOrderHashHexOf. rewrite Hobj, Hobj'. simpl.
    unfold Hasher.getOrderHashHex. now rewrite Hparts. }
  split; [|split; [reflexivity|split; [|split; [|split; [|split]]]]].
  - unfold Hasher.getOrderHashHexOf. rewrite Hobj. simpl.
    unfold Hasher.getOrderHashHex, EthABI.soliditySHA3.
    now rewrite HasherFacts.solidityPack_wellFormed.
  - apply HasherFacts.packedOrder_length, Hwf.
  - destruct Hwf as [Ha _]. eapply Forall_impl; [|exact Ha].
    intros a [Hlen _]. exact Hlen.
  - destruct Hwf as [_ Hu]. eapply Forall_impl; [|exact Hu].
    intros n Hn. cbv beta in Hn |- *. split; [apply be_bytes_length|].
    apply be_value_be_bytes.
    change (Z.of_nat 32) with 32.
    assert (2 ^ 53 < 256 ^ 32) by reflexivity. lia.
  - exact Hsame.
  - intros obj' Hnd Hp. apply Hsame.
    now apply HasherFacts.reordered_sameHashedFields.
Qed.

(** The sample order, hashed from the object as [makeOrder] lays it out and
    from the same properties in the order of the schema. *)
Lemma order_hash_twelve_fields_witness :
  asOrder Fakes.sampleObject = Some Fakes.sampleOrder /\
  Hasher.wellFormed Fakes.sampleOrder /\
  Hasher.getOrderHashHexOf Fakes.fakeKeccak Fakes.sampleObject =
    Some (Ok (bufferToHex (Fakes.fakeKeccak (Hasher.packedOrder Fakes.sampleOrder)))) /\
  Hasher.getOrderHashHexOf Fakes.fakeKeccak (rev Fakes.sampleObject) =
    Hasher.getOrderHashHexOf Fakes.fakeKeccak Fakes.sampleObject.
Proof.
  assert (Hwf : Hasher.wellFormed Fakes.sampleOrder).
  { split; [solve_Forall | solve_Forall]. }
  pose proof (order_hash_twelve_fields Fakes.fakeKeccak Fakes.sampleObject
                Fakes.sampleOrder eq_refl Hwf) as H.
  split; [reflexivity|]. split; [exact Hwf|]. split; [exact (proj1 H)|].
  apply (proj2 (proj2 (proj2 (proj2 (proj2 (proj2 H)))))).
  - vm_compute. repeat constructor; simpl; intuition discriminate.
  - apply Permutation_rev.
Defined.

Lemma safe_or_unsafe (l : list Z) :
  Forall (fun n => 0 <= n) l ->
  Forall (fun n => 0 <= n < 2 ^ 53) l \/ Exists (fun n => 2 ^ 53 <= Z.abs n) l.
Proof.
  induction 1 as [|n l Hn _ [IH|IH]].
  - left. constructor.
  - destruct (Z.lt_ge_cases n (2 ^ 53)) as [Hlt|Hge].
    + left. constructor; [lia|exact IH].
    + right. apply Exists_cons_hd. rewrite Z.abs_eq; lia.
  - right. now apply Exists_cons_tl.
Qed.


(** The conversion to a number is where precision goes: 2^53 + 1 becomes
    2^53, which the big-number constructor of the packer then refuses. *)
Lemma toNumber_rounds_then_refused :
  toNumber 9007199254740993 = Finite 9007199254740992 /\
  EthABI.parseNumber (toNumber 9007199254740993) = Throw "Assertion failed".
Proof. split; reflexivity. Qed.



(** ** Order assembly: routes, fills and cancellations *)
Module ExchangeFacts.
Import Exchange ExchangeSpec.

(** Logs compared up to the bracketing of appends. *)
Ltac norm_log :=
  repeat (rewrite <- app_assoc || rewrite <- app_comm_cons || rewrite app_nil_l).

(** Calls that come in turns are the calls of the legs. *)
Lemma turns_Forall (P : Event -> Prop) (n : nat) (legs : list (list Event)) :
  Forall (Forall P) legs -> Forall P (turns n legs).
Proof.
  revert legs. induction n as [|n IH]; intros legs H; simpl; [constructor|].
  apply Forall_app. split.
  - apply Forall_flat_map. eapply Forall_impl; [|exact H].
    intros [|x l] Hl; simpl; [constructor|].
    constructor; [now inversion Hl | constructor].
  - apply IH. apply Forall_map. eapply Forall_impl; [|exact H].
    intros [|x l] Hl; simpl; [constructor | now inversion Hl].
Qed.

Lemma all2_run {A B} (a : Async A) (b : Async B) (log : list Event) :
  all2 a b log =
  (match fst (a []), fst (b []) with
   | Ok x, Ok y => Ok (x, y)
   | Throw e, Ok _ => Throw e
   | Ok _, Throw e => Throw e
   | Throw ea, Throw eb =>
       if (length (snd (a [])) <=? length (snd (b [])))%nat
       then Throw ea else Throw eb
   end, log ++ inTurns [snd (a []); snd (b [])]).
Proof. unfold all2. destruct (a []), (b []). reflexivity. Qed.

Section Runs.
Variable env : Env.

Lemma getPathObj_run (token from to : address) (amount : string) (dec : Z)
  (log : list Event) :
  getPathObj env token from to amount dec log =
  (fst (getPathObj env token from to amount dec []),
   log ++ snd (getPathObj env token from to amount dec [])).
Proof.
  unfold getPathObj, bind, call, resolve.
  destruct (isNetwork env token) as [[|]|e]; simpl;
    rewrite <- ?app_assoc, ?app_nil_r; reflexivity.
Qed.

(** A leg makes the network test first, and at most one call after it. *)
Lemma getPathObj_first_call (token from to : address) (amount : string) (dec : Z) :
  exists rest,
    snd (getPathObj env token from to amount dec []) = CallIsNetwork token :: rest /\
    (length rest <= 1)%nat.
Proof.
  unfold getPathObj, bind, call, resolve.
  destruct (isNetwork env token) as [[|]|e]; simpl; eexists; split;
    try reflexivity; simpl; lia.
Qed.

Lemma getPathObj_calls (token from to : address) (amount : string) (dec : Z) :
  Forall (fun ev => isLookup ev = true)
         (snd (getPathObj env token from to amount dec [])).
Proof.
  unfold getPathObj, bind, call, resolve.
  destruct (isNetwork env token) as [[|]|e]; simpl; repeat constructor.
Qed.

Lemma lookupCalls_lookups (signedOrder : Order) (fill : string) (md td : Z) :
  Forall (fun ev => isLookup ev = true) (lookupCalls env signedOrder fill md td).
Proof.
  unfold lookupCalls. apply Forall_app. split.
  - repeat constructor.
  - apply turns_Forall. repeat constructor; apply getPathObj_calls.
Qed.

(** The calls of the two legs in turns: the two network tests first. *)
Lemma lookupCalls_turns (signedOrder : Order) (fill : string) (md td : Z) :
  exists makerRest takerRest,
    snd (makerLeg env signedOrder fill md []) =
      CallIsNetwork (makerTokenAddress signedOrder) :: makerRest /\
    snd (takerLeg env signedOrder fill td []) =
      CallIsNetwork (takerTokenAddress signedOrder) :: takerRest /\
    lookupCalls env signedOrder fill md td =
      [ CallGetDecimals (makerTokenAddress signedOrder);
        CallGetDecimals (takerTokenAddress signedOrder);
        CallIsNetwork (makerTokenAddress signedOrder);
        CallIsNetwork (takerTokenAddress signedOrder) ] ++ makerRest ++ takerRest.
Proof.
  unfold lookupCalls, makerLeg, takerLeg.
  destruct (getPathObj_first_call (makerTokenAddress signedOrder)
              (maker signedOrder) (user_address env)
              (getPartialAmount env fill (value (takerTokenAmount signedOrder))
                 (value (makerTokenAmount signedOrder))) md)
    as (makerRest & -> & Hm).
  destruct (getPathObj_first_call (takerTokenAddress signedOrder)
              (user_address env) (maker signedOrder) fill td)
    as (takerRest & -> & Ht).
  exists makerRest, takerRest. split; [reflexivity|]. split; [reflexivity|].
  destruct makerRest as [|m [|? ?]]; [| |simpl in Hm; lia];
    destruct takerRest as [|t [|? ?]]; try (simpl in Ht; lia); reflexivity.
Qed.

(** [prepTakeOrder] up to the two legs, once the decimals are known. *)
Lemma prepTakeOrder_legs (signedOrder : Order) (fill : string)
  (options : ExchangeOptions) (log : list Event) (md td : Z) :
  getDecimals env (makerTokenAddress signedOrder) (makerTokenDecimals options) = Ok md ->
  getDecimals env (takerTokenAddress signedOrder) (takerTokenDecimals options) = Ok td ->
  isOk (fst (makerLeg env signedOrder fill md [])) = false \/
  isOk (fst (takerLeg env signedOrder fill td [])) = false ->
  exists e,
    prepTakeOrder env signedOrder fill options log =
      (Throw e, log ++ lookupCalls env signedOrder fill md td) /\
    (fst (makerLeg env signedOrder fill md []) = Throw e \/
     fst (takerLeg env signedOrder fill td []) = Throw e).
Proof.
  intros Hmd Htd Hrej.
  unfold lookupCalls, makerLeg, takerLeg in *.
  unfold prepTakeOrder, bind, all3, currencyNetwork_getDecimals, call,
    getFees, resolve, reject.
  rewrite Hmd, Htd. cbv beta iota. rewrite all2_run.
  destruct (fst (getPathObj env (makerTokenAddress signedOrder) _ _ _ _ []))
    as [mp|em];
    destruct (fst (getPathObj env (takerTokenAddress signedOrder) _ _ _ _ []))
      as [tp|et].
  - destruct Hrej; discriminate.
  - exists et. split; [norm_log; reflexivity | now right].
  - exists em. split; [norm_log; reflexivity | now left].
  - destruct (_ <=? _)%nat.
    + exists em. split; [norm_log; reflexivity | now left].
    + exists et. split; [norm_log; reflexivity | now right].
Qed.

(** The first rejection in time is the rejection of the fill: a taker leg
    that is rejected at its network test comes before a maker leg that is
    rejected by the path finder, which is only called once the maker's test
    is answered. *)
Lemma prepTakeOrder_first_rejection (signedOrder : Order) (fill : string)
  (options : ExchangeOptions) (log : list Event) (md td : Z) (em et : error) :
  getDecimals env (makerTokenAddress signedOrder) (makerTokenDecimals options) = Ok md ->
  getDecimals env (takerTokenAddress signedOrder) (takerTokenDecimals options) = Ok td ->
  isNetwork env (makerTokenAddress signedOrder) = Ok true ->
  getPath env (makerTokenAddress signedOrder) (maker signedOrder) (user_address env)
    (getPartialAmount env fill (value (takerTokenAmount signedOrder))
       (value (makerTokenAmount signedOrder))) md = Throw em ->
  isNetwork env (takerTokenAddress signedOrder) = Throw et ->
  fst (prepTakeOrder env signedOrder fill options log) = Throw et.
Proof.
  intros Hmd Htd Hnm Hpath Hnt.
  unfold prepTakeOrder, bind, all3, currencyNetwork_getDecimals, call,
    getFees, resolve, reject.
  rewrite Hmd, Htd. cbv beta iota. rewrite all2_run.
  unfold getPathObj, bind, call, resolve. rewrite Hnm, Hnt. cbv beta iota.
  rewrite Hpath. reflexivity.
Qed.

(** [prepTakeOrder] once the decimals are known and both legs resolve. *)
Lemma prepTakeOrder_run (signedOrder : Order) (fill : string)
  (options : ExchangeOptions) (log : list Event) (md td : Z) (mp tp : PathObj) :
  getDecimals env (makerTokenAddress signedOrder) (makerTokenDecimals options) = Ok md ->
  getDecimals env (takerTokenAddress signedOrder) (takerTokenDecimals options) = Ok td ->
  fst (makerLeg env signedOrder fill md []) = Ok mp ->
  fst (takerLeg env signedOrder fill td []) = Ok tp ->
  prepTakeOrder env signedOrder fill options log =
  if noRoute mp || noRoute tp
  then (Throw RouteNotFoundError, log ++ lookupCalls env signedOrder fill md td)
  else
    match ecSignature signedOrder with
    | None => (Throw "Cannot read property 'v' of undefined",
               log ++ lookupCalls env signedOrder fill md td)
    | Some sg =>
        (match prepFuncTx env (user_address env)
                 (exchangeContractAddress signedOrder)
                 "Exchange" "fillOrderTrustlines"
                 (takeOrderArgs env signedOrder fill td mp tp sg)
                 (gasPrice options) (takeOrderLimit mp tp) with
         | Ok tx => Ok {| take_rawTx := rawTx tx;
                          take_ethFees := ethFees tx;
                          makerMaxFees := maxFees mp;
                          makerPath := path mp;
                          takerMaxFees := maxFees tp;
                          takerPath := path tp |}
         | Throw e => Throw e
         end,
         log ++ lookupCalls env signedOrder fill md td ++
         [ CallPrepFuncTx (user_address env)
             (exchangeContractAddress signedOrder)
             "Exchange" "fillOrderTrustlines"
             (takeOrderArgs env signedOrder fill td mp tp sg)
             (gasPrice options) (takeOrderLimit mp tp) ])
    end.
Proof.
  intros Hmd Htd Hmp Htp.
  unfold lookupCalls, makerLeg, takerLeg in *.
  unfold prepTakeOrder, bind, all3, currencyNetwork_getDecimals, call,
    getFees, resolve, reject.
  rewrite Hmd, Htd. cbv beta iota. rewrite all2_run, Hmp, Htp.
  cbv beta iota.
  destruct (noRoute mp || noRoute tp); [norm_log; reflexivity|].
  destruct (ecSignature signedOrder) as [sg|]; [|norm_log; reflexivity].
  unfold takeOrderArgs, takeOrderLimit, getOrderAddresses, getOrderValues.
  cbn [maker makerTokenAddress takerTokenAddress feeRecipient makerTokenAmount
       takerTokenAmount expirationUnixTimestampSec salt].
  destruct (prepFuncTx env _ _ _ _ _ _ _); norm_log; reflexivity.
Qed.

(** [cancelOrder] once the decimals of the taker token are known. *)
Lemma cancelOrder_run (signedOrder : Order) (cancelValue : string)
  (options : ExchangeOptions) (log : list Event) :
  cancelOrder env signedOrder cancelValue options log =
  match getDecimals env (takerTokenAddress signedOrder) (takerTokenDecimals options) with
  | Throw e => (Throw e, log ++ [CallGetDecimals (takerTokenAddress signedOrder)])
  | Ok td =>
      match ecSignature signedOrder with
      | None => (Throw "Cannot read property 'v' of undefined",
                 log ++ [CallGetDecimals (takerTokenAddress signedOrder)])
      | Some sg =>
          (match prepFuncTx env (user_address env)
                   (exchangeContractAddress signedOrder)
                   "Exchange" "fillOrderTrustlines"
                   (cancelOrderArgs env signedOrder cancelValue td sg)
                   (gasPrice options) (gasLimit options) with
           | Ok tx => Ok {| rawTx := rawTx tx; ethFees := ethFees tx |}
           | Throw e => Throw e
           end,
           log ++ [ CallGetDecimals (takerTokenAddress signedOrder);
                    CallPrepFuncTx (user_address env)
                      (exchangeContractAddress signedOrder)
                      "Exchange" "fillOrderTrustlines"
                      (cancelOrderArgs env signedOrder cancelValue td sg)
                      (gasPrice options) (gasLimit options) ])
      end
  end.
Proof.
  unfold cancelOrder, bind, all2, currencyNetwork_getDecimals, call, getFees,
    resolve, reject.
  destruct (getDecimals env _ _) as [td|e]; [|reflexivity].
  cbv beta iota.
  destruct (ecSignature signedOrder) as [sg|]; [|reflexivity].
  unfold cancelOrderArgs, getOrderAddresses, getOrderValues.
  cbn [maker makerTokenAddress takerTokenAddress feeRecipient makerTokenAmount
       takerTokenAmount expirationUnixTimestampSec salt].
  destruct (prepFuncTx env _ _ _ _ _ _ _); norm_log; reflexivity.
Qed.

End Runs.

End ExchangeFacts.

Module ExchangeProperties.
Import Exchange ExchangeSpec ExchangeFacts.



(** C8. For a token that is not a currency network [getPathObj] resolves,
    after the network test alone, to the literal route: empty path, zero
    maximal fees, an estimated gas of 40000, the no-network flag set. A fill
    with that route on one leg passes the route test whenever the other leg
    has a route (or is no network either): the contract call is prepared,
    after the two lookups of decimals, the network tests of the two legs, the
    maker's first, and what the other leg calls after its test; the result of
    the fill is then what that preparation answers. *)
Theorem noNetwork_sentinel_route
  (env : Env) (token from to : address) (amount : string) (dec : Z)
  (log : list Event) :
  isNetwork env token = Ok false ->
  getPathObj env token from to amount dec log =
    (Ok {| path := []; maxFees := FeesNumber 0; estimatedGas := 40000;
           isNoNetwork := true |},
     log ++ [CallIsNetwork token]) /\
  noRoute noNetworkPath = false /\
  (forall signedOrder fill options log' md td other sg,
     token = makerTokenAddress signedOrder ->
     getDecimals env (makerTokenAddress signedOrder) (makerTokenDecimals options) = Ok md ->
     getDecimals env (takerTokenAddress signedOrder) (takerTokenDecimals options) = Ok td ->
     ecSignature signedOrder = Some sg ->
     fst (takerLeg env signedOrder fill td []) = Ok other ->
     noRoute other = false ->
     exists takerRest,
       snd (takerLeg env signedOrder fill td []) =
         CallIsNetwork (takerTokenAddress signedOrder) :: takerRest /\
       prepTakeOrder env signedOrder fill options log' =
         (takeOrderResult env signedOrder fill options td noNetworkPath other sg,
          log' ++
          [ CallGetDecimals (makerTokenAddress signedOrder);
            CallGetDecimals (takerTokenAddress signedOrder);
            CallIsNetwork (makerTokenAddress signedOrder);
            CallIsNetwork (takerTokenAddress signedOrder) ] ++ takerRest ++
          [ CallPrepFuncTx (user_address env) (exchangeContractAddress signedOrder)
              "Exchange" "fillOrderTrustlines"
              (takeOrderArgs env signedOrder fill td noNetworkPath other sg)
              (gasPrice options) (takeOrderLimit noNetworkPath other) ])) /\
  (forall signedOrder fill options log' md td other sg,
     token = takerTokenAddress signedOrder ->
     getDecimals env (makerTokenAddress signedOrder) (makerTokenDecimals options) = Ok md ->
     getDecimals env (takerTokenAddress signedOrder) (takerTokenDecimals options) = Ok td ->
     ecSignature signedOrder = Some sg ->
     fst (makerLeg env signedOrder fill md []) = Ok other ->
     noRoute other = false ->
     exists makerRest,
       snd (makerLeg env signedOrder fill md []) =
         CallIsNetwork (makerTokenAddress signedOrder) :: makerRest /\
       prepTakeOrder env signedOrder fill options log' =
         (takeOrderResult env signedOrder fill options td other noNetworkPath sg,
          log' ++
          [ CallGetDecimals (makerTokenAddress signedOrder);
            CallGetDecimals (takerTokenAddress signedOrder);
            CallIsNetwork (makerTokenAddress signedOrder);
            CallIsNetwork (takerTokenAddress signedOrder) ] ++ makerRest ++
          [ CallPrepFuncTx (user_address env) (exchangeContractAddress signedOrder)
              "Exchange" "fillOrderTrustlines"
              (takeOrderArgs env signedOrder fill td other noNetworkPath sg)
              (gasPrice options) (takeOrderLimit other noNetworkPath) ])).
Proof.
  intros Hnet.
  assert (Hleg : forall f t a d l,
            getPathObj env token f t a d l = (Ok noNetworkPath, l ++ [CallIsNetwork token])).
  { intros. unfold getPathObj, bind, call, resolve. now rewrite Hnet. }
  split; [apply Hleg|]. split; [reflexivity|]. split.
  - intros so fill options log' md td other sg -> Hmd Htd Hsg Hother Hroute.
    assert (Hmaker : makerLeg env so fill md [] =
                     (Ok noNetworkPath, [CallIsNetwork (makerTokenAddress so)])).
    { unfold makerLeg. now rewrite Hleg. }
    destruct (lookupCalls_turns env so fill md td)
      as (makerRest & takerRest & Hm & Ht & Hcalls).
    rewrite Hmaker in Hm. injection Hm as <-.
    exists takerRest. split; [exact Ht|].
    rewrite (prepTakeOrder_run env so fill options log' md td noNetworkPath other);
      try assumption; [|now rewrite Hmaker].
    rewrite Hroute, Hsg. cbn [noRoute orb]. rewrite Hcalls.
    unfold takeOrderResult. norm_log. reflexivity.
  - intros so fill options log' md td other sg -> Hmd Htd Hsg Hother Hroute.
    assert (Htaker : takerLeg env so fill td [] =
                     (Ok noNetworkPath, [CallIsNetwork (takerTokenAddress so)])).
    { unfold takerLeg. now rewrite Hleg. }
    destruct (lookupCalls_turns env so fill md td)
      as (makerRest & takerRest & Hm & Ht & Hcalls).
    rewrite Htaker in Ht. injection Ht as <-.
    exists makerRest. split; [exact Hm|].
    rewrite (prepTakeOrder_run env so fill options log' md td other noNetworkPath);
      try assumption; [|now rewrite Htaker].
    rewrite Hroute, Hsg. cbn [noRoute orb]. rewrite Hcalls.
    unfold takeOrderResult. rewrite app_nil_r. norm_log. reflexivity.
Qed.

(** The maker token of the sample outside the network: the literal route, and
    the fill reaches the contract call. *)
Lemma noNetwork_sentinel_route_witness :
  isNetwork (FakeExchange.fakeEnv FakeExchange.networkButFor3 (fun _ => [Fakes.addr 9]))
    (Fakes.addr 3) = Ok false /\
  getPathObj (FakeExchange.fakeEnv FakeExchange.networkButFor3 (fun _ => [Fakes.addr 9]))
    (Fakes.addr 3) (Fakes.addr 2) (Fakes.addr 9) "1" 2 [] =
    (Ok {| path := []; maxFees := FeesNumber 0; estimatedGas := 40000;
           isNoNetwork := true |},
     [CallIsNetwork (Fakes.addr 3)]) /\
  existsb isPrepCall
    (snd (prepTakeOrder
            (FakeExchange.fakeEnv FakeExchange.networkButFor3 (fun _ => [Fakes.addr 9]))
            FakeExchange.signedSample "1" FakeExchange.noOptions [])) = true /\
  filter isRouteCall
    (snd (prepTakeOrder
            (FakeExchange.fakeEnv FakeExchange.networkButFor3 (fun _ => [Fakes.addr 9]))
            FakeExchange.signedSample "1" FakeExchange.noOptions [])) =
    [ CallIsNetwork (Fakes.addr 3); CallIsNetwork (Fakes.addr 4);
      CallGetPath (Fakes.addr 4) (Fakes.addr 9) (Fakes.addr 2) "1" 2 ].
Proof.
  split; [reflexivity|]. split; [|split].
  - apply (noNetwork_sentinel_route
             (FakeExchange.fakeEnv FakeExchange.networkButFor3 (fun _ => [Fakes.addr 9]))
             (Fakes.addr 3) (Fakes.addr 2) (Fakes.addr 9) "1" 2 []).
    reflexivity.
  - reflexivity.
  - reflexivity.
Defined.

(** C9 (as the code has it). [cancelOrder] resolves no route: it asks for the
    decimals of the taker token, and with a signature on the order it goes
    straight to the preparation of the contract call; it calls neither the
    network test nor the path finder for either leg. *)
Theorem cancelOrder_resolves_no_route
  (env : Env) (signedOrder : Order) (cancelValue : string)
  (options : ExchangeOptions) (log : list Event) :
  exists calls,
    snd (cancelOrder env signedOrder cancelValue options log) = log ++ calls /\
    Forall (fun ev => isRouteCall ev = false) calls /\
    (forall td sg,
       getDecimals env (takerTokenAddress signedOrder) (takerTokenDecimals options) = Ok td ->
       ecSignature signedOrder = Some sg ->
       exists prep,
         isPrepCall prep = true /\
         calls = [CallGetDecimals (takerTokenAddress signedOrder); prep]).
Proof.
  rewrite cancelOrder_run.
  destruct (getDecimals env _ _) as [td|e].
  - destruct (ecSignature signedOrder) as [sg|].
    + eexists. split; [reflexivity|]. split; [repeat constructor|].
      intros td' sg' _ _. eexists. split; [|reflexivity]. reflexivity.
    + eexists. split; [reflexivity|]. split; [repeat constructor|].
      intros td' sg' _ Hsg. discriminate.
  - eexists. split; [reflexivity|]. split; [repeat constructor|].
    intros td' sg' Htd _. discriminate.
Qed.

(** A cancellation that resolves no route: on a relay where both tokens of
    the sample are networks with a route, [cancelOrder] prepares the contract
    call without a single call that resolves a route, where the fill path
    makes four. *)
Lemma cancelOrder_resolves_no_route_counterexample :
  let env := FakeExchange.fakeEnv (fun _ => true) (fun _ => [Fakes.addr 2; Fakes.addr 9]) in
  let cancelled := snd (cancelOrder env FakeExchange.signedSample "1" FakeExchange.noOptions []) in
  let filled := snd (prepTakeOrder env FakeExchange.signedSample "1" FakeExchange.noOptions []) in
  existsb isPrepCall cancelled = true /\
  existsb isRouteCall cancelled = false /\
  length (filter isRouteCall filled) = 4%nat.
Proof. cbv zeta. repeat split; reflexivity. Qed.

End ExchangeProperties.

(** ** The salt of a new order *)

Lemma round53_nonneg (m : Z) : 0 <= m -> 0 <= round53 m.
Proof.
  intros Hm. unfold round53.
  destruct (Z.log2 m <? 53); [exact Hm|].
  set (d := Z.log2 m - 52).
  assert (0 <= 2 ^ d) by apply Z.pow_nonneg, Z.le_0_2.
  assert (0 <= m / 2 ^ d) by (apply Z_div_nonneg_nonneg; assumption).
  destruct ((2 ^ (d - 1) <? m mod 2 ^ d) || ((m mod 2 ^ d =? 2 ^ (d - 1)) && Z.odd (m / 2 ^ d))); nia.
Qed.

(** The product of a double below one and 10^9, rounded, stays below 10^9. *)
Lemma times_1e9_below (r : dyadic) :
  isRandom r -> round53 (mant r * 1000000000) < 1000000000 * 2 ^ expo r.
Proof.
  intros (HE & Hm & Hlt).
  set (X := 2 ^ expo r) in *.
  assert (HX : 0 < X) by (apply Z.pow_pos_nonneg; lia).
  set (N := mant r * 1000000000).
  destruct (Z.lt_ge_cases (Z.log2 N) 53) as [Hs|Hl].
  - assert (HN : round53 N = N).
    { unfold round53. apply Z.ltb_lt in Hs. now rewrite Hs. }
    rewrite HN. unfold N. lia.
  - pose proof (round53_upper N Hl) as Hup.
    assert (HNpos : 0 < N).
    { destruct (Z.le_gt_cases N 0) as [Hle|Hgt]; [|exact Hgt].
      rewrite (Z.log2_nonpos N Hle) in Hl. lia. }
    pose proof (Z.log2_spec N HNpos) as [Hlo _].
    assert (HNX : N < 2 ^ (30 + expo r)).
    { rewrite Z.pow_add_r by lia. fold X.
      change (2 ^ 30) with 1073741824. unfold N. nia. }
    assert (Hll : Z.log2 N < 30 + expo r).
    { apply (Z.pow_lt_mono_r_iff 2); lia. }
    assert (HP : 2 ^ (Z.log2 N - 53) <= 2 ^ (expo r - 24))
      by (apply Z.pow_le_mono_r; lia).
    assert (HE24 : 24 <= expo r) by lia.
    destruct (Z.le_gt_cases (expo r) 53) as [Hsmall|Hbig].
    + assert (H29 : 2 ^ (expo r - 24) <= 2 ^ 29) by (apply Z.pow_le_mono_r; lia).
      change (2 ^ 29) with 536870912 in H29. unfold N in *. lia.
    + assert (HY : X = 2 * 2 ^ (expo r - 1)).
      { unfold X. replace (expo r) with (Z.succ (expo r - 1)) at 1 by lia.
        apply Z.pow_succ_r. lia. }
      assert (H53 : 2 ^ 53 <= 2 ^ (expo r - 1)) by (apply Z.pow_le_mono_r; lia).
      assert (HPY : 2 ^ (expo r - 24) <= 2 ^ (expo r - 1))
        by (apply Z.pow_le_mono_r; lia).
      unfold N in *. lia.
Qed.

Lemma Math_floor_times_1e9 (r : dyadic) :
  isRandom r -> 0 <= Math_floor (times r 1000000000) < 1000000000.
Proof.
  intros Hr. pose proof (times_1e9_below r Hr) as Hb.
  destruct Hr as (HE & Hm & Hlt).
  assert (HX : 0 < 2 ^ expo r) by (apply Z.pow_pos_nonneg; lia).
  unfold Math_floor, times. cbn [mant expo]. split.
  - apply Z.div_pos; [|exact HX]. apply round53_nonneg. lia.
  - apply Z.div_lt_upper_bound; [exact HX|]. lia.
Qed.

Module MakeOrderProperties.
Import Exchange.

(** What a resolved [makeOrder] returns: the order it assembled, whose salt
    is the one drawn, with the digest of that order as its hash. *)
Lemma makeOrder_resolved (env : Env) (keccak256 : Buffer -> Buffer)
  (random : dyadic) (exchangeAddress makerToken takerToken : address)
  (makerValue takerValue : string) (options : ExchangeOptions)
  (log log' : list Event) (signedOrder : Order) :
  makeOrder env keccak256 random exchangeAddress makerToken takerToken
    makerValue takerValue options log = (Ok signedOrder, log') ->
  salt signedOrder = newSalt random /\
  exists order digest,
    salt order = newSalt random /\
    Hasher.getOrderHashHex keccak256 order = Ok digest /\
    hash signedOrder = Some digest /\
    In (CallSignMsgHash digest) log'.
Proof.
  unfold makeOrder, bind, all2, currencyNetwork_getDecimals, call, getFees,
    resolve, lift.
  destruct (getDecimals env makerToken (makerTokenDecimals options)) as [md|e];
    destruct (getDecimals env takerToken (takerTokenDecimals options)) as [td|e'];
    cbv beta iota zeta; try discriminate.
  match goal with
  | |- context [Hasher.getOrderHashHex keccak256 ?o] =>
      set (order := o); destruct (Hasher.getOrderHashHex keccak256 order) as [digest|e] eqn:Hd
  end; [|discriminate].
  destruct (user_signMsgHash env digest) as [sg|e]; [|discriminate].
  destruct (fetchUrl env _ _) as [[]|e]; [|discriminate].
  intros H. injection H as <- <-.
  split; [reflexivity|].
  exists order, digest. split; [reflexivity|]. split; [exact Hd|].
  split; [reflexivity|].
  apply in_or_app. left. apply in_or_app. right. now left.
Qed.

(** C10. For every double that [Math.random()] can return, the salt of the
    order is the decimal string of an integer n with 0 <= n < 10^9 (so below
    2^30); read back for hashing it is n again, held exactly by a double; and
    the order a resolved [makeOrder] returns carries that salt. *)
Theorem makeOrder_salt_below_1e9 (random : dyadic) :
  isRandom random ->
  exists n,
    0 <= n < 10 ^ 9 /\ n < 2 ^ 30 /\
    newSalt random = Z.to_int n /\
    BigNumber (newSalt random) = n /\
    toNumber (BigNumber (newSalt random)) = Finite n /\
    forall env keccak256 exchangeAddress makerToken takerToken makerValue
           takerValue options log log' signedOrder,
      makeOrder env keccak256 random exchangeAddress makerToken takerToken
        makerValue takerValue options log = (Ok signedOrder, log') ->
      salt signedOrder = Z.to_int n.
Proof.
  intros Hr. exists (Math_floor (times random 1000000000)).
  pose proof (Math_floor_times_1e9 random Hr) as Hn.
  change (10 ^ 9) with 1000000000. change (2 ^ 30) with 1073741824.
  assert (Hread : BigNumber (newSalt random) = Math_floor (times random 1000000000)).
  { unfold BigNumber, newSalt, toString. apply DecimalZ.of_to. }
  split; [exact Hn|]. split; [lia|]. split; [reflexivity|].
  split; [exact Hread|]. split.
  - rewrite Hread. apply toNumber_safe.
    assert (1000000000 < 2 ^ 53) by reflexivity. lia.
  - intros env keccak256 ea mt tt mv tv options log log' so Hrun.
    apply makeOrder_resolved in Hrun. exact (proj1 Hrun).
Qed.

(** The largest double below one, (2^53 - 1) / 2^53, gives the salt
    999999999; and a [makeOrder] that resolves on the relay double. *)
Lemma makeOrder_salt_below_1e9_witness :
  isRandom {| mant := 2 ^ 53 - 1; expo := 53 |} /\
  newSalt {| mant := 2 ^ 53 - 1; expo := 53 |} = Z.to_int 999999999 /\
  (exists n, 0 <= n < 10 ^ 9 /\
             newSalt {| mant := 2 ^ 53 - 1; expo := 53 |} = Z.to_int n) /\
  isOk (fst (makeOrder (FakeExchange.fakeEnv (fun _ => true) (fun _ => []))
               Fakes.fakeKeccak {| mant := 2 ^ 53 - 1; expo := 53 |}
               (Fakes.addr 1) (Fakes.addr 3) (Fakes.addr 4) "1" "0.5"
               FakeExchange.noOptions [])) = true.
Proof.
  assert (Hr : isRandom {| mant := 2 ^ 53 - 1; expo := 53 |}).
  { unfold isRandom. cbn [mant expo]. repeat split; try lia; reflexivity. }
  split; [exact Hr|]. split; [reflexivity|]. split.
  - destruct (makeOrder_salt_below_1e9 _ Hr) as (n & Hn & _ & Hs & _).
    exists n. split; assumption.
  - reflexivity.
Defined.

End MakeOrderProperties.

(** ** Hex strings and the bytes they denote *)

Lemma hexVal_hexDigit (n : Z) : 0 <= n < 16 -> hexVal (hexDigit n) = Some n.
Proof.
  intros H. rewrite <- (Z2Nat.id n) by lia.
  assert (Hk : (Z.to_nat n < 16)%nat) by lia.
  generalize dependent (Z.to_nat n). clear H. intros k Hk.
  do 16 (destruct k as [|k]; [reflexivity|]). lia.
Qed.

Lemma hexPairs_hexOfBytes (bs : Buffer) :
  Forall isByte bs -> hexPairs (hexOfBytes bs) = Some bs.
Proof.
  induction 1 as [|b bs Hb _ IH]; [reflexivity|].
  unfold isByte in Hb. cbn [hexOfBytes hexPairs].
  rewrite !hexVal_hexDigit, IH.
  - f_equal. f_equal. pose proof (Z.div_mod b 16). lia.
  - apply Z.mod_pos_bound. lia.
  - split; [apply Z.div_pos; lia | apply Z.div_lt_upper_bound; lia].
Qed.

Lemma hexOfBytes_length (bs : Buffer) :
  String.length (hexOfBytes bs) = (2 * length bs)%nat.
Proof. induction bs as [|b bs IH]; simpl; [reflexivity | rewrite IH; lia]. Qed.

(** A digest written by [bufferToHex] is read back by [arrayify]. *)
Lemma arrayify_bufferToHex (bs : Buffer) :
  Forall isByte bs -> arrayify (bufferToHex bs) = Ok bs.
Proof.
  intros H. unfold arrayify, bufferToHex.
  rewrite hexOfBytes_length.
  replace (Nat.even (2 * length bs)) with true
    by (symmetry; apply Nat.even_spec; exists (length bs); reflexivity).
  now rewrite hexPairs_hexOfBytes.
Qed.

Lemma isHexString_bufferToHex (bs : Buffer) :
  Forall isByte bs -> isHexString (bufferToHex bs) None = true.
Proof.
  intros H. unfold isHexString, bufferToHex. rewrite andb_true_r.
  induction H as [|b bs Hb _ IH]; [reflexivity|].
  unfold isByte in Hb. cbn [hexOfBytes allHex].
  rewrite !hexVal_hexDigit; [exact IH| |].
  - apply Z.mod_pos_bound. lia.
  - split; [apply Z.div_pos; lia | apply Z.div_lt_upper_bound; lia].
Qed.

(** Hex digits in pairs always decode; one digit more is completed by a
    leading zero. *)
Lemma hexPairs_allHex (s : string) :
  allHex s = true ->
  (Nat.even (String.length s) = true -> exists bs, hexPairs s = Some bs) /\
  (forall c x, hexVal c = Some x -> Nat.even (String.length s) = false ->
               exists bs, hexPairs (String c s) = Some bs).
Proof.
  induction s as [|a s IH]; intros Hall.
  - split; [exists []; reflexivity | discriminate].
  - cbn [allHex] in Hall. destruct (hexVal a) as [xa|] eqn:Ha; [|discriminate].
    destruct (IH Hall) as [IHe IHo]. split.
    + intros Hev. cbn [String.length] in Hev. rewrite Nat.even_succ in Hev.
      apply IHo with (x := xa); [exact Ha|].
      rewrite <- Nat.negb_odd, Hev. reflexivity.
    + intros c x Hc Hodd. cbn [String.length] in Hodd.
      rewrite Nat.even_succ in Hodd.
      assert (Hev : Nat.even (String.length s) = true)
        by (rewrite <- Nat.negb_odd, Hodd; reflexivity).
      destruct (IHe Hev) as [bs Hbs].
      exists (16 * x + xa :: bs). cbn [hexPairs]. now rewrite Hc, Ha, Hbs.
Qed.

(** Whatever [isHexString] accepts, [arrayify] decodes. *)
Lemma arrayify_isHexString (value : string) :
  isHexString value None = true -> exists bs, arrayify value = Ok bs.
Proof.
  unfold isHexString, arrayify.
  destruct value as [|c0 rest]; [discriminate|].
  destruct c0 as [[] [] [] [] [] [] [] []]; try discriminate.
  destruct rest as [|c1 digits]; [discriminate|].
  destruct c1 as [[] [] [] [] [] [] [] []]; try discriminate.
  rewrite andb_true_r. intros Hall.
  destruct (hexPairs_allHex digits Hall) as [He Ho].
  destruct (Nat.even (String.length digits)) eqn:Hev.
  - destruct (He eq_refl) as [bs ->]. now exists bs.
  - destruct (Ho "0"%char 0 eq_refl eq_refl) as [bs ->]. now exists bs.
Qed.

(** ** The ethers wallet: loading, signing, keystores *)
Module WalletProperties.
Import EthersWallet WalletSpec.

Section Loaded.
Variable WALLET_TYPE_ETHERS : string.
Variable EXPECTED_VERSIONS : list Z.
Variable TL_WALLET_VERSION : Z.
Variable keccak256 : Buffer -> Buffer.
Variable computeAddress : Buffer -> address.
Variable signDigest : Buffer -> Buffer -> string.
Variable splitSignature : string -> ECSignature.
Variable scrypt : string -> Buffer -> Buffer.
Variable keystream : Buffer -> Buffer -> nat -> Z.
Variable mnemonicToEntropy : string -> result Buffer.
Variable entropyToMnemonic : Buffer -> string.
Variable fromMnemonic : string -> Buffer.

Abbreviation signMsgHash := (signMsgHash keccak256 signDigest splitSignature).
Abbreviation signMessage := (signMessage keccak256 signDigest splitSignature).
Abbreviation loadFrom := (loadFrom WALLET_TYPE_ETHERS EXPECTED_VERSIONS).
Abbreviation getAddress := (getAddress computeAddress).
Abbreviation personalSignature :=
  (personalSignature keccak256 signDigest splitSignature).

Lemma signMessage_loaded (w : SigningKey) (message : Arrayish) :
  signMessage (Some w) message = Ok (personalSignature w (messageBytes message)).
Proof. reflexivity. Qed.

Lemma signMsgHash_loaded (w : SigningKey) (msgHash : string) (payload : Buffer) :
  isHexString msgHash None = true -> arrayify msgHash = Ok payload ->
  signMsgHash (Some w) msgHash = Ok (personalSignature w payload).
Proof.
  intros Hhex Harr. unfold EthersWallet.signMsgHash. now rewrite Hhex, Harr.
Qed.

(** C3 (as the code has it). With no account loaded [signMsgHash] fails with
    the no-account error. With an account loaded it fails with the
    invalid-input error exactly when the digest is not a 0x-prefixed string of
    hex digits; the width is not looked at: every such string, of whatever
    length, is signed. *)
Theorem signMsgHash_failures (this : Wallet) (msgHash : string) :
  (this = None -> signMsgHash this msgHash = Throw NoAccountLoadedError) /\
  (forall w, this = Some w ->
     (signMsgHash this msgHash = Throw InvalidInputError <->
      isHexString msgHash None = false)) /\
  (forall w, this = Some w -> isHexString msgHash None = true ->
     isOk (signMsgHash this msgHash) = true).
Proof.
  split; [intros ->; reflexivity|].
  assert (Hok : forall w, this = Some w -> isHexString msgHash None = true ->
                  isOk (signMsgHash this msgHash) = true).
  { intros w -> Hhex. destruct (arrayify_isHexString msgHash Hhex) as [bs Hbs].
    now rewrite (signMsgHash_loaded w msgHash bs Hhex Hbs). }
  split; [|exact Hok].
  intros w Hw. split.
  - intros Hfail. destruct (isHexString msgHash None) eqn:Hhex; [|reflexivity].
    specialize (Hok w Hw eq_refl). rewrite Hfail in Hok. discriminate.
  - intros Hhex. subst this. unfold EthersWallet.signMsgHash. now rewrite Hhex.
Qed.

(** C4. On a loaded wallet, [signMsgHash] of a 0x-prefixed hex digest decodes
    the digest and hands the decoded bytes to [signMessage], once: what is
    signed is keccak-256 of prefix, length and those bytes. For a digest
    written by [bufferToHex] the payload is the digest's own bytes.
    [signMessage] signs what it is given as it is: an array of bytes as those
    bytes, a string as the bytes of its text. *)
Theorem signMsgHash_signs_decoded_digest (w : SigningKey) (msgHash : string) :
  isHexString msgHash None = true ->
  (exists payload,
     arrayify msgHash = Ok payload /\
     signMsgHash (Some w) msgHash = signMessage (Some w) (Bytes payload) /\
     signMsgHash (Some w) msgHash =
       Ok {| concatSig :=
               signDigest (privateKey w)
                 (keccak256 (messagePrefix ++ lengthBytes (length payload) ++ payload));
             sigParts :=
               splitSignature
                 (signDigest (privateKey w)
                    (keccak256 (messagePrefix ++ lengthBytes (length payload) ++ payload))) |}) /\
  (forall digest, Forall isByte digest -> msgHash = bufferToHex digest ->
     signMsgHash (Some w) msgHash = Ok (personalSignature w digest)) /\
  (forall bytes, signMessage (Some w) (Bytes bytes) = Ok (personalSignature w bytes)) /\
  signMessage (Some w) (Text msgHash) = Ok (personalSignature w (toUtf8Bytes msgHash)).
Proof.
  intros Hhex. split; [|split; [|split]].
  - destruct (arrayify_isHexString msgHash Hhex) as [payload Hp].
    exists payload. split; [exact Hp|].
    rewrite (signMsgHash_loaded w msgHash payload Hhex Hp). split; reflexivity.
  - intros digest Hbytes ->.
    apply signMsgHash_loaded; [exact Hhex | now apply arrayify_bufferToHex].
  - intros bytes. apply signMessage_loaded.
  - apply signMessage_loaded.
Qed.

Lemma verifyWalletData_rejects (wd : EthersWalletData) :
  wd_type wd <> WALLET_TYPE_ETHERS \/ ~ In (wd_version wd) EXPECTED_VERSIONS ->
  verifyWalletData wd WALLET_TYPE_ETHERS EXPECTED_VERSIONS = Throw FormatError.
Proof.
  intros Hbad. unfold verifyWalletData.
  destruct (String.eqb_spec (wd_type wd) WALLET_TYPE_ETHERS) as [Heq|Hne];
    [|reflexivity].
  cbn [negb]. destruct Hbad as [Hbad|Hbad]; [contradiction|].
  destruct (existsb (Z.eqb (wd_version wd)) EXPECTED_VERSIONS) eqn:Hex;
    [|reflexivity].
  exfalso. apply Hbad. apply existsb_exists in Hex as (v & Hin & Hv).
  apply Z.eqb_eq in Hv. now subst v.
Qed.

(** C7. A container with another type tag, or with a version outside the
    accepted set, makes [loadFrom] fail with the format error whatever its
    payload is, and leaves the wallet as it was: the address and every
    signature afterwards are those of the account loaded before. *)
Theorem loadFrom_rejects_unknown_format (this : Wallet) (wd : EthersWalletData) :
  wd_type wd <> WALLET_TYPE_ETHERS \/ ~ In (wd_version wd) EXPECTED_VERSIONS ->
  loadFrom this wd = (Throw FormatError, this) /\
  (forall payload, loadFrom this (withKey wd payload) = (Throw FormatError, this)) /\
  getAddress (snd (loadFrom this wd)) = getAddress this /\
  (forall msgHash,
     signMsgHash (snd (loadFrom this wd)) msgHash = signMsgHash this msgHash).
Proof.
  intros Hbad.
  assert (Hload : forall payload,
            loadFrom this (withKey wd payload) = (Throw FormatError, this)).
  { intros payload. unfold EthersWallet.loadFrom.
    now rewrite (verifyWalletData_rejects (withKey wd payload)). }
  assert (Hwd : loadFrom this wd = (Throw FormatError, this)).
  { unfold EthersWallet.loadFrom. now rewrite verifyWalletData_rejects. }
  split; [exact Hwd|]. split; [exact Hload|]. rewrite Hwd. split; reflexivity.
Qed.

Abbreviation encryptToSerializedKeystore :=
  (encryptToSerializedKeystore keccak256 computeAddress scrypt keystream
     mnemonicToEntropy).
Abbreviation recoverFromEncryptedKeystore :=
  (recoverFromEncryptedKeystore WALLET_TYPE_ETHERS TL_WALLET_VERSION keccak256
     computeAddress scrypt keystream entropyToMnemonic fromMnemonic).
Abbreviation walletEncrypt :=
  (walletEncrypt keccak256 computeAddress scrypt keystream mnemonicToEntropy).
Abbreviation fromEncryptedJson :=
  (fromEncryptedJson keccak256 computeAddress scrypt keystream entropyToMnemonic
     fromMnemonic).

Lemma sameBytes_refl (a : Buffer) : sameBytes a a = true.
Proof.
  induction a as [|x a IH]; [reflexivity|].
  simpl. now rewrite Z.eqb_refl, IH.
Qed.

(** Counter mode undoes itself: the key stream is combined in twice. *)
Lemma aesCtrFrom_twice (key iv : Buffer) (i : nat) (data : Buffer) :
  aesCtrFrom keystream key iv i (aesCtrFrom keystream key iv i data) = data.
Proof.
  revert i. induction data as [|d data IH]; intros i; [reflexivity|].
  simpl. rewrite IH. f_equal.
  now rewrite Z.lxor_assoc, Z.lxor_nilpotent, Z.lxor_0_r.
Qed.

Lemma aesCtr_twice (key iv data : Buffer) :
  aesCtr keystream key iv (aesCtr keystream key iv data) = data.
Proof. apply aesCtrFrom_twice. Qed.

Lemma validPrivateKey_length (key : Buffer) :
  validPrivateKey key = true -> (length key =? 32)%nat = true.
Proof. unfold validPrivateKey. intros H. now apply andb_prop in H. Qed.

(** What was sealed under a password is opened by it: the code matches, the
    key is decrypted to itself, its address is the one written, and a hidden
    mnemonic that derives the key is accepted. *)
Lemma fromEncryptedJson_walletEncrypt
  (w : SigningKey) (password : string) (random : Buffer) :
  validPrivateKey (privateKey w) = true ->
  (forall phrase, mnemonic w = Some phrase ->
     exists entropy, mnemonicToEntropy phrase = Ok entropy /\
                     fromMnemonic (entropyToMnemonic entropy) = privateKey w) ->
  exists keystore opened,
    walletEncrypt w password random = Ok keystore /\
    fromEncryptedJson keystore password = Ok opened /\
    privateKey opened = privateKey w.
Proof.
  intros Hkey Hphrase. apply validPrivateKey_length in Hkey.
  unfold EthersWallet.walletEncrypt. rewrite Hkey. cbn [negb]. cbv zeta.
  assert (Hopen : forall hidden,
            (forall mnemonicIv mnemonicCiphertext,
               hidden = Some (mnemonicIv, mnemonicCiphertext) ->
               fromMnemonic
                 (entropyToMnemonic
                    (aesCtr keystream
                       (firstn 32 (skipn 32 (scrypt password (firstn 32 random))))
                       mnemonicIv mnemonicCiphertext)) = privateKey w) ->
            exists opened,
              fromEncryptedJson
                {| ks_address := computeAddress (privateKey w);
                   ks_salt := firstn 32 random;
                   ks_iv := firstn 16 (skipn 32 random);
                   ks_ciphertext :=
                     aesCtr keystream (firstn 16 (scrypt password (firstn 32 random)))
                       (firstn 16 (skipn 32 random)) (privateKey w);
                   ks_mac :=
                     keccak256
                       (firstn 16 (skipn 16 (scrypt password (firstn 32 random))) ++
                        aesCtr keystream (firstn 16 (scrypt password (firstn 32 random)))
                          (firstn 16 (skipn 32 random)) (privateKey w));
                   ks_mnemonic := hidden |} password = Ok opened /\
              privateKey opened = privateKey w).
  { intros hidden Hhidden. unfold EthersWallet.fromEncryptedJson.
    cbn [ks_address ks_salt ks_iv ks_ciphertext ks_mac ks_mnemonic]. cbv zeta.
    rewrite sameBytes_refl. cbn [negb].
    rewrite !aesCtr_twice, Hkey, sameBytes_refl. cbn [negb].
    destruct hidden as [[mnemonicIv mnemonicCiphertext]|].
    - rewrite (Hhidden _ _ eq_refl), sameBytes_refl. cbn [negb].
      eexists. split; reflexivity.
    - eexists. split; reflexivity. }
  destruct (mnemonic w) as [phrase|] eqn:Hm.
  - destruct (Hphrase phrase eq_refl) as (entropy & -> & Hderive).
    destruct (Hopen (Some (firstn 16 (skipn 64 random),
                           aesCtr keystream
                             (firstn 32 (skipn 32 (scrypt password (firstn 32 random))))
                             (firstn 16 (skipn 64 random)) entropy)))
      as (opened & Hopened & Hsame).
    { intros mnemonicIv mnemonicCiphertext H. injection H as <- <-.
      now rewrite aesCtr_twice. }
    eexists. exists opened. split; [reflexivity|]. split; assumption.
  - destruct (Hopen None) as (opened & Hopened & Hsame); [discriminate|].
    eexists. exists opened. split; [reflexivity|]. split; assumption.
Qed.

Lemma verifyWalletData_current (w : SigningKey) :
  In TL_WALLET_VERSION EXPECTED_VERSIONS ->
  verifyWalletData
    (toEthersWalletData WALLET_TYPE_ETHERS TL_WALLET_VERSION computeAddress w)
    WALLET_TYPE_ETHERS EXPECTED_VERSIONS = Ok tt.
Proof.
  intros current_version_accepted.
  unfold verifyWalletData, toEthersWalletData. cbn [wd_type wd_version].
  rewrite String.eqb_refl. cbn [negb].
  replace (existsb (Z.eqb TL_WALLET_VERSION) EXPECTED_VERSIONS) with true;
    [reflexivity|].
  symmetry. apply existsb_exists. exists TL_WALLET_VERSION.
  split; [exact current_version_accepted | apply Z.eqb_refl].
Qed.


End Loaded.

End WalletProperties.

Module WalletExamples.
Import EthersWallet FakeWallet.

(** No fixed width: [0x12] is one byte, not the 32 bytes of a hash, and a
    loaded wallet signs it. *)
Lemma signMsgHash_failures_counterexample :
  isHexString "0x12" (Some 32%nat) = false /\
  signMsgHash Fakes.fakeKeccak fakeSign fakeSplit (Some (fakeKey 7)) "0x12" =
    Ok (WalletSpec.personalSignature Fakes.fakeKeccak fakeSign fakeSplit
          (fakeKey 7) [18]) /\
  signMsgHash Fakes.fakeKeccak fakeSign fakeSplit (Some (fakeKey 7)) "0x12" <>
    Throw InvalidInputError.
Proof. split; [reflexivity|]. split; [reflexivity|discriminate]. Qed.

(** The digest of three bytes, as [bufferToHex] writes it, signed by a loaded
    wallet: the payload is the 32 bytes of the digest. *)
Lemma signMsgHash_signs_decoded_digest_witness :
  isHexString (bufferToHex (Fakes.fakeKeccak [1; 2; 3])) None = true /\
  signMsgHash Fakes.fakeKeccak fakeSign fakeSplit (Some (fakeKey 7))
    (bufferToHex (Fakes.fakeKeccak [1; 2; 3])) =
    Ok (WalletSpec.personalSignature Fakes.fakeKeccak fakeSign fakeSplit
          (fakeKey 7) (Fakes.fakeKeccak [1; 2; 3])).
Proof.
  split; [reflexivity|].
  apply (proj1 (proj2 (WalletProperties.signMsgHash_signs_decoded_digest
                         Fakes.fakeKeccak fakeSign fakeSplit (fakeKey 7)
                         (bufferToHex (Fakes.fakeKeccak [1; 2; 3])) eq_refl))).
  - apply be_bytes_isByte.
  - reflexivity.
Defined.

(** A container of version 99 where only version 1 is accepted, offered to a
    wallet that holds an account. *)
Lemma loadFrom_rejects_unknown_format_witness :
  (wd_type (fakeData "ethers" 99 8) <> "ethers"%string \/
   ~ In (wd_version (fakeData "ethers" 99 8)) [1]) /\
  loadFrom "ethers" [1] (Some (fakeKey 7)) (fakeData "ethers" 99 8) =
    (Throw FormatError, Some (fakeKey 7)).
Proof.
  assert (H : wd_type (fakeData "ethers" 99 8) <> "ethers"%string \/
              ~ In (wd_version (fakeData "ethers" 99 8)) [1]).
  { right. simpl. intros [H|[]]. discriminate. }
  split; [exact H|].
  exact (proj1 (WalletProperties.loadFrom_rejects_unknown_format "ethers" [1]
                  Fakes.fakeKeccak fakeAddress fakeSign fakeSplit
                  (Some (fakeKey 7)) (fakeData "ethers" 99 8) H)).
Defined.



End WalletExamples.

(** * Further properties of the Exchange *)

Module ExchangeRuns.
Import Exchange ExchangeSpec MakeOrderSpec ExchangeFacts.

Section Runs.
Variable env : Env.
Variable keccak256 : Buffer -> Buffer.

(** [makeOrder], step by step. *)
Lemma makeOrder_run (random : dyadic)
  (exchangeAddress makerToken takerToken : address)
  (makerValue takerValue : string) (options : ExchangeOptions)
  (log : list Event) :
  makeOrder env keccak256 random exchangeAddress makerToken takerToken
    makerValue takerValue options log =
  match getDecimals env makerToken (makerTokenDecimals options),
        getDecimals env takerToken (takerTokenDecimals options) with
  | Ok md, Ok td =>
      let order :=
        feesApplied env
          (assembledOrder env random exchangeAddress makerToken takerToken
             makerValue takerValue options md td) in
      match Hasher.getOrderHashHex keccak256 order with
      | Throw e =>
          (Throw e, log ++ [CallGetDecimals makerToken; CallGetDecimals takerToken])
      | Ok digest =>
          match user_signMsgHash env digest with
          | Throw e =>
              (Throw e,
               log ++ [CallGetDecimals makerToken; CallGetDecimals takerToken;
                       CallSignMsgHash digest])
          | Ok sg =>
              (match fetchUrl env "exchange/order" (withSignature order sg) with
               | Ok _ => Ok (withHash (withSignature order sg) digest)
               | Throw e => Throw e
               end,
               log ++ [CallGetDecimals makerToken; CallGetDecimals takerToken;
                       CallSignMsgHash digest;
                       CallPost "exchange/order" (withSignature order sg)])
          end
      end
  | Throw e, _ =>
      (Throw e, log ++ [CallGetDecimals makerToken; CallGetDecimals takerToken])
  | Ok _, Throw e =>
      (Throw e, log ++ [CallGetDecimals makerToken; CallGetDecimals takerToken])
  end.
Proof.
  unfold makeOrder, bind, all2, currencyNetwork_getDecimals, call, getFees,
    resolve, lift.
  destruct (getDecimals env makerToken (makerTokenDecimals options)) as [md|e];
    destruct (getDecimals env takerToken (takerTokenDecimals options)) as [td|e'];
    cbv beta iota zeta; try (norm_log; reflexivity).
  fold (assembledOrder env random exchangeAddress makerToken takerToken
          makerValue takerValue options md td).
  fold (feesApplied env
          (assembledOrder env random exchangeAddress makerToken takerToken
             makerValue takerValue options md td)).
  destruct (Hasher.getOrderHashHex keccak256 _) as [digest|e];
    [|norm_log; reflexivity].
  destruct (user_signMsgHash env digest) as [sg|e]; [|norm_log; reflexivity].
  destruct (fetchUrl env _ _) as [[]|e]; norm_log; reflexivity.
Qed.

(** [prepTakeOrder] when a lookup of decimals rejects: no leg is asked for. *)
Lemma prepTakeOrder_decimals (signedOrder : Order) (fill : string)
  (options : ExchangeOptions) (log : list Event) (e : error) :
  getDecimals env (makerTokenAddress signedOrder) (makerTokenDecimals options) = Throw e \/
  (isOk (getDecimals env (makerTokenAddress signedOrder) (makerTokenDecimals options)) = true /\
   getDecimals env (takerTokenAddress signedOrder) (takerTokenDecimals options) = Throw e) ->
  prepTakeOrder env signedOrder fill options log =
  (Throw e, log ++ [ CallGetDecimals (makerTokenAddress signedOrder);
                     CallGetDecimals (takerTokenAddress signedOrder) ]).
Proof.
  intros Hrej.
  unfold prepTakeOrder, bind, all3, all2, currencyNetwork_getDecimals, call,
    getFees, resolve, reject.
  destruct Hrej as [Hm|[Hm Ht]].
  - rewrite Hm.
    destruct (getDecimals env (takerTokenAddress signedOrder) _);
      cbv beta iota; norm_log; reflexivity.
  - rewrite Ht.
    destruct (getDecimals env (makerTokenAddress signedOrder) _);
      [cbv beta iota; norm_log; reflexivity | discriminate].
Qed.

End Runs.

Lemma lookups_are_no_submissions (calls : list Event) :
  Forall (fun ev => isLookup ev = true) calls ->
  Forall (fun ev => isSubmission ev = false) calls /\ filter isPrepCall calls = [].
Proof.
  induction 1 as [|ev calls Hev _ [IH1 IH2]]; [split; constructor|].
  split.
  - constructor; [destruct ev; simpl in *; congruence | exact IH1].
  - simpl. destruct ev; simpl in *; try congruence; exact IH2.
Qed.

End ExchangeRuns.

Module MoreExchangeProperties.
Import Exchange ExchangeSpec MakeOrderSpec ExchangeFacts ExchangeRuns.

(** X1. The order a resolved [makeOrder] returns is the order that was
    posted, with its hash added: it carries the signature the user's signer
    gave for that hash, the hash is the one [getOrderHashHex] computes again
    from the returned order itself, the maker is the user and taker and fee
    recipient are the zero address; the calls were, in this order, the two
    lookups of decimals, the signature of the hash, and the post. *)
Theorem makeOrder_returns_the_posted_order
  (env : Env) (keccak256 : Buffer -> Buffer) (random : dyadic)
  (exchangeAddress makerToken takerToken : address)
  (makerValue takerValue : string) (options : ExchangeOptions)
  (log log' : list Event) (signedOrder : Order) :
  makeOrder env keccak256 random exchangeAddress makerToken takerToken
    makerValue takerValue options log = (Ok signedOrder, log') ->
  exists digest sg posted,
    hash signedOrder = Some digest /\
    ecSignature signedOrder = Some sg /\
    user_signMsgHash env digest = Ok sg /\
    Hasher.getOrderHashHex keccak256 signedOrder = Ok digest /\
    maker signedOrder = user_address env /\
    taker signedOrder = ZERO_ADDRESS /\
    feeRecipient signedOrder = ZERO_ADDRESS /\
    signedOrder = withHash posted digest /\
    ecSignature posted = Some sg /\
    log' = log ++ [ CallGetDecimals makerToken; CallGetDecimals takerToken;
                    CallSignMsgHash digest; CallPost "exchange/order" posted ].
Proof.
  rewrite makeOrder_run.
  destruct (getDecimals env makerToken _) as [md|e]; [|discriminate].
  destruct (getDecimals env takerToken _) as [td|e']; [|discriminate].
  cbv zeta.
  set (order := feesApplied env _).
  destruct (Hasher.getOrderHashHex keccak256 order) as [digest|e] eqn:Hd;
    [|discriminate].
  destruct (user_signMsgHash env digest) as [sg|e] eqn:Hs; [|discriminate].
  destruct (fetchUrl env _ _) as [[]|e]; [|discriminate].
  intros H. injection H as <- <-.
  exists digest, sg, (withSignature order sg).
  repeat split; try reflexivity; assumption.
Qed.

(** A [makeOrder] that resolves on the relay double. *)
Lemma makeOrder_returns_the_posted_order_witness :
  match makeOrder (FakeExchange.fakeEnv (fun _ => true) (fun _ => []))
          Fakes.fakeKeccak {| mant := 1; expo := 1 |}
          (Fakes.addr 1) (Fakes.addr 3) (Fakes.addr 4) "1" "0.5"
          FakeExchange.noOptions [] with
  | (Ok signedOrder, log') =>
      Hasher.getOrderHashHex Fakes.fakeKeccak signedOrder =
        match hash signedOrder with Some digest => Ok digest | None => Throw "" end /\
      length log' = 4%nat
  | (Throw _, _) => False
  end.
Proof.
  remember (makeOrder (FakeExchange.fakeEnv (fun _ => true) (fun _ => []))
              Fakes.fakeKeccak {| mant := 1; expo := 1 |}
              (Fakes.addr 1) (Fakes.addr 3) (Fakes.addr 4) "1" "0.5"
              FakeExchange.noOptions []) as run eqn:Hrun.
  destruct run as [[signedOrder|e] log'].
  - destruct (makeOrder_returns_the_posted_order _ _ _ _ _ _ _ _ _ _ _ _
                (eq_sym Hrun))
      as (digest & sg & posted & Hh & _ & _ & Hd & _ & _ & _ & _ & _ & Hlog).
    split.
    + rewrite Hh. exact Hd.
    + rewrite Hlog. reflexivity.
  - vm_compute in Hrun. discriminate.
Defined.

(** X2. Whatever happens in [makeOrder], an order is posted only with a
    signature on it that the user's signer gave for the hash of that very
    order, after that signature was asked for; and a signature is asked for
    only of a digest that [getOrderHashHex] computed for an order with the
    salt drawn. When hashing throws or the signer rejects, nothing is
    posted. *)
Theorem makeOrder_posts_only_what_it_signed
  (env : Env) (keccak256 : Buffer -> Buffer) (random : dyadic)
  (exchangeAddress makerToken takerToken : address)
  (makerValue takerValue : string) (options : ExchangeOptions)
  (log : list Event) :
  exists calls,
    snd (makeOrder env keccak256 random exchangeAddress makerToken takerToken
           makerValue takerValue options log) = log ++ calls /\
    (forall endpoint body, In (CallPost endpoint body) calls ->
       exists digest sg,
         ecSignature body = Some sg /\
         user_signMsgHash env digest = Ok sg /\
         Hasher.getOrderHashHex keccak256 body = Ok digest /\
         In (CallSignMsgHash digest) calls) /\
    (forall digest, In (CallSignMsgHash digest) calls ->
       exists order,
         Hasher.getOrderHashHex keccak256 order = Ok digest /\
         salt order = newSalt random /\ ecSignature order = None) /\
    Forall (fun ev => isPrepCall ev = false) calls.
Proof.
  rewrite makeOrder_run.
  assert (Hnone : forall r : result Order,
            exists calls,
              snd (r, log ++ [CallGetDecimals makerToken; CallGetDecimals takerToken]) =
                log ++ calls /\
              (forall endpoint body, In (CallPost endpoint body) calls ->
                 exists digest sg,
                   ecSignature body = Some sg /\
                   user_signMsgHash env digest = Ok sg /\
                   Hasher.getOrderHashHex keccak256 body = Ok digest /\
                   In (CallSignMsgHash digest) calls) /\
              (forall digest, In (CallSignMsgHash digest) calls ->
                 exists order,
                   Hasher.getOrderHashHex keccak256 order = Ok digest /\
                   salt order = newSalt random /\ ecSignature order = None) /\
              Forall (fun ev => isPrepCall ev = false) calls).
  { intros r. eexists. split; [reflexivity|].
    split; [intros ? ? [H|[H|[]]]; discriminate|].
    split; [intros ? [H|[H|[]]]; discriminate | repeat constructor]. }
  destruct (getDecimals env makerToken _) as [md|e]; [|apply Hnone].
  destruct (getDecimals env takerToken _) as [td|e']; [|apply Hnone].
  cbv zeta. set (order := feesApplied env _).
  destruct (Hasher.getOrderHashHex keccak256 order) as [digest|e] eqn:Hd.
  - destruct (user_signMsgHash env digest) as [sg|e] eqn:Hs.
    + eexists. split; [reflexivity|]. split; [|split; [|repeat constructor]].
      * intros endpoint body [H|[H|[H|[H|[]]]]]; try discriminate.
        injection H as <- <-. exists digest, sg.
        repeat split; try assumption. simpl. tauto.
      * intros digest' [H|[H|[H|[H|[]]]]]; try discriminate.
        injection H as <-. exists order. repeat split. exact Hd.
    + eexists. split; [reflexivity|]. split; [|split; [|repeat constructor]].
      * intros endpoint body [H|[H|[H|[]]]]; discriminate.
      * intros digest' [H|[H|[H|[]]]]; try discriminate.
        injection H as <-. exists order. repeat split. exact Hd.
  - apply Hnone.
Qed.

(** X3. [prepTakeOrder] and [cancelOrder] only prepare: in every run their
    calls are lookups and at most one preparation of a contract call, never
    a signature, a relay or a post; and when they resolve, the preparation is
    their last call. *)
Theorem fills_and_cancellations_only_prepare
  (env : Env) (signedOrder : Order) (amount : string)
  (options : ExchangeOptions) (log : list Event) :
  (exists calls,
     snd (prepTakeOrder env signedOrder amount options log) = log ++ calls /\
     Forall (fun ev => isSubmission ev = false) calls /\
     (length (filter isPrepCall calls) <= 1)%nat /\
     (isOk (fst (prepTakeOrder env signedOrder amount options log)) = true ->
      exists lookups prep,
        calls = lookups ++ [prep] /\ isPrepCall prep = true /\
        Forall (fun ev => isLookup ev = true) lookups)) /\
  (exists calls,
     snd (cancelOrder env signedOrder amount options log) = log ++ calls /\
     Forall (fun ev => isSubmission ev = false) calls /\
     (length (filter isPrepCall calls) <= 1)%nat /\
     (isOk (fst (cancelOrder env signedOrder amount options log)) = true ->
      exists lookups prep,
        calls = lookups ++ [prep] /\ isPrepCall prep = true /\
        Forall (fun ev => isLookup ev = true) lookups)).
Proof.
  split.
  - destruct (getDecimals env (makerTokenAddress signedOrder)
                (makerTokenDecimals options)) as [md|e] eqn:Hmd.
    2:{ rewrite (prepTakeOrder_decimals env signedOrder amount options log e)
          by (left; exact Hmd).
        eexists. split; [reflexivity|]. split; [repeat constructor|].
        split; [simpl; lia | discriminate]. }
    destruct (getDecimals env (takerTokenAddress signedOrder)
                (takerTokenDecimals options)) as [td|e] eqn:Htd.
    2:{ rewrite (prepTakeOrder_decimals env signedOrder amount options log e)
          by (right; rewrite Hmd; split; [reflexivity | exact Htd]).
        eexists. split; [reflexivity|]. split; [repeat constructor|].
        split; [simpl; lia | discriminate]. }
    pose proof (lookupCalls_lookups env signedOrder amount md td) as Hl.
    destruct (lookups_are_no_submissions _ Hl) as [Hns Hnp].
    destruct (fst (makerLeg env signedOrder amount md [])) as [mp|em] eqn:Hmp.
    2:{ destruct (prepTakeOrder_legs env signedOrder amount options log md td Hmd Htd)
          as (e & Hrun & _); [left; now rewrite Hmp|].
        rewrite Hrun.
        eexists. split; [reflexivity|]. split; [exact Hns|].
        split; [rewrite Hnp; simpl; lia | discriminate]. }
    destruct (fst (takerLeg env signedOrder amount td [])) as [tp|et] eqn:Htp.
    2:{ destruct (prepTakeOrder_legs env signedOrder amount options log md td Hmd Htd)
          as (e & Hrun & _); [right; now rewrite Htp|].
        rewrite Hrun.
        eexists. split; [reflexivity|]. split; [exact Hns|].
        split; [rewrite Hnp; simpl; lia | discriminate]. }
    rewrite (prepTakeOrder_run env signedOrder amount options log md td mp tp)
      by assumption.
    destruct (noRoute mp || noRoute tp).
    { eexists. split; [reflexivity|]. split; [exact Hns|].
      split; [rewrite Hnp; simpl; lia | discriminate]. }
    destruct (ecSignature signedOrder) as [sg|].
    2:{ eexists. split; [reflexivity|]. split; [exact Hns|].
        split; [rewrite Hnp; simpl; lia | discriminate]. }
    eexists. split; [reflexivity|]. split; [|split].
    + apply Forall_app. split; [exact Hns | repeat constructor].
    + rewrite filter_app, Hnp. simpl. lia.
    + intros _. eexists. eexists. split; [reflexivity|]. split; [reflexivity|exact Hl].
  - rewrite cancelOrder_run.
    destruct (getDecimals env _ _) as [td|e].
    2:{ eexists. split; [reflexivity|]. split; [repeat constructor|].
        split; [simpl; lia | discriminate]. }
    destruct (ecSignature signedOrder) as [sg|].
    2:{ eexists. split; [reflexivity|]. split; [repeat constructor|].
        split; [simpl; lia | discriminate]. }
    eexists. split; [reflexivity|]. split; [repeat constructor|].
    split; [simpl; lia|].
    intros _. exists [CallGetDecimals (takerTokenAddress signedOrder)].
    eexists. split; [reflexivity|]. split; [reflexivity | repeat constructor].
Qed.

End MoreExchangeProperties.

Module FillProperties.
Import Exchange ExchangeSpec MakeOrderSpec ExchangeFacts ExchangeRuns.

(** X4. The gas limit a caller gives is not used by a fill: [prepTakeOrder]
    runs the same for every [gasLimit] option, and any contract call it
    prepares carries three halves of the sum of the gas estimated for the two
    resolved legs, with the caller's gas price. A cancellation passes the
    caller's gas limit and gas price on as they are. *)
Theorem fill_gas_limit_is_estimated
  (env : Env) (signedOrder : Order) (amount : string)
  (options : ExchangeOptions) (log : list Event) :
  (forall limit,
     prepTakeOrder env signedOrder amount (setGasLimit limit options) log =
     prepTakeOrder env signedOrder amount options log) /\
  (forall ev limit,
     In ev (snd (prepTakeOrder env signedOrder amount options [])) ->
     callLimit ev = Some limit ->
     callPrice ev = Some (gasPrice options) /\
     exists md td mp tp,
       fst (makerLeg env signedOrder amount md []) = Ok mp /\
       fst (takerLeg env signedOrder amount td []) = Ok tp /\
       limit = Some (inject_Z (estimatedGas tp + estimatedGas mp) * (3 # 2))%Q) /\
  (forall ev limit,
     In ev (snd (cancelOrder env signedOrder amount options [])) ->
     callLimit ev = Some limit ->
     limit = gasLimit options /\ callPrice ev = Some (gasPrice options)).
Proof.
  split; [intros limit; reflexivity|]. split.
  - intros ev limit.
    assert (Hlook : forall calls, Forall (fun c => isLookup c = true) calls ->
              In ev calls -> callLimit ev = Some limit -> False).
    { intros calls Hall Hin Hc. rewrite Forall_forall in Hall.
      specialize (Hall ev Hin). destruct ev; simpl in *; congruence. }
    destruct (getDecimals env (makerTokenAddress signedOrder)
                (makerTokenDecimals options)) as [md|e] eqn:Hmd.
    2:{ rewrite (prepTakeOrder_decimals env signedOrder amount options [] e)
          by (left; exact Hmd).
        cbn [snd app]. intros Hin Hc.
        repeat (destruct Hin as [<-|Hin]; [discriminate Hc|]). contradiction. }
    destruct (getDecimals env (takerTokenAddress signedOrder)
                (takerTokenDecimals options)) as [td|e] eqn:Htd.
    2:{ rewrite (prepTakeOrder_decimals env signedOrder amount options [] e)
          by (right; rewrite Hmd; split; [reflexivity | exact Htd]).
        cbn [snd app]. intros Hin Hc.
        repeat (destruct Hin as [<-|Hin]; [discriminate Hc|]). contradiction. }
    pose proof (lookupCalls_lookups env signedOrder amount md td) as Hl.
    destruct (fst (makerLeg env signedOrder amount md [])) as [mp|em] eqn:Hmp.
    2:{ destruct (prepTakeOrder_legs env signedOrder amount options [] md td Hmd Htd)
          as (e & Hrun & _); [left; now rewrite Hmp|].
        rewrite Hrun.
        intros Hin Hc. exfalso. exact (Hlook _ Hl Hin Hc). }
    destruct (fst (takerLeg env signedOrder amount td [])) as [tp|et] eqn:Htp.
    2:{ destruct (prepTakeOrder_legs env signedOrder amount options [] md td Hmd Htd)
          as (e & Hrun & _); [right; now rewrite Htp|].
        rewrite Hrun.
        intros Hin Hc. exfalso. exact (Hlook _ Hl Hin Hc). }
    rewrite (prepTakeOrder_run env signedOrder amount options [] md td mp tp)
      by assumption.
    destruct (noRoute mp || noRoute tp);
      [intros Hin Hc; exfalso; exact (Hlook _ Hl Hin Hc)|].
    destruct (ecSignature signedOrder) as [sg|];
      [|intros Hin Hc; exfalso; exact (Hlook _ Hl Hin Hc)].
    cbn [snd app]. intros Hin Hc. apply in_app_or in Hin as [Hin|[<-|[]]].
    + exfalso. exact (Hlook _ Hl Hin Hc).
    + simpl in Hc. injection Hc as <-. split; [reflexivity|].
      exists md, td, mp, tp. repeat split; assumption.
  - intros ev limit. rewrite cancelOrder_run.
    destruct (getDecimals env _ _) as [td|e];
      [destruct (ecSignature signedOrder) as [sg|]|]; cbn [snd app];
      intros Hin Hc;
      repeat (destruct Hin as [<-|Hin]; [simpl in Hc; try discriminate|]);
      try contradiction.
    injection Hc as <-. split; reflexivity.
Qed.

(** X5. What a fill hands to the contract for a path: the path without its
    first hop, except that a path of a single address is handed over whole.
    The argument is an end of the path that leaves out at most one address,
    and for a path that is not empty it is not empty and ends at the same
    address. *)
Theorem path_argument_keeps_the_destination (p : list address) :
  (exists first, p = first ++ pathArgument p /\ (length first <= 1)%nat) /\
  (p <> [] -> pathArgument p <> [] /\
              forall d, last (pathArgument p) d = last p d) /\
  (forall a, pathArgument [a] = [a]) /\
  (forall a b rest, pathArgument (a :: b :: rest) = b :: rest).
Proof.
  split; [|split; [|split]].
  - destruct p as [|a [|b rest]].
    + exists []. split; [reflexivity | simpl; lia].
    + exists []. split; [reflexivity | simpl; lia].
    + exists [a]. split; [reflexivity | simpl; lia].
  - intros Hne. destruct p as [|a [|b rest]]; [contradiction| |].
    + split; [discriminate | reflexivity].
    + split; [discriminate | reflexivity].
  - reflexivity.
  - reflexivity.
Qed.

(** X6. A fill between two tokens that are both outside the trustline
    network never calls the path finder: after the two lookups of decimals
    and the two network tests it prepares the contract call with two empty
    paths and a gas limit of 120000. *)
Theorem fill_between_tokens_outside_the_network
  (env : Env) (signedOrder : Order) (fill : string) (options : ExchangeOptions)
  (log : list Event) (md td : Z) (sg : ECSignature) :
  isNetwork env (makerTokenAddress signedOrder) = Ok false ->
  isNetwork env (takerTokenAddress signedOrder) = Ok false ->
  getDecimals env (makerTokenAddress signedOrder) (makerTokenDecimals options) = Ok md ->
  getDecimals env (takerTokenAddress signedOrder) (takerTokenDecimals options) = Ok td ->
  ecSignature signedOrder = Some sg ->
  exists args limit,
    snd (prepTakeOrder env signedOrder fill options log) =
      log ++ [ CallGetDecimals (makerTokenAddress signedOrder);
               CallGetDecimals (takerTokenAddress signedOrder);
               CallIsNetwork (makerTokenAddress signedOrder);
               CallIsNetwork (takerTokenAddress signedOrder);
               CallPrepFuncTx (user_address env)
                 (exchangeContractAddress signedOrder)
                 "Exchange" "fillOrderTrustlines" args (gasPrice options)
                 (Some limit) ] /\
    (limit == 120000)%Q /\
    nth_error args 3 = Some (ArgAddresses []) /\
    nth_error args 4 = Some (ArgAddresses []) /\
    (forall tx, fst (prepTakeOrder env signedOrder fill options log) = Ok tx ->
       makerPath tx = [] /\ takerPath tx = []).
Proof.
  intros Hnm Hnt Hmd Htd Hsg.
  assert (Hleg : forall token f t a d l,
            isNetwork env token = Ok false ->
            getPathObj env token f t a d l =
            (Ok noNetworkPath, l ++ [CallIsNetwork token])).
  { intros token f t a d l Hn. unfold getPathObj, bind, call, resolve.
    now rewrite Hn. }
  rewrite (prepTakeOrder_run env signedOrder fill options log md td
             noNetworkPath noNetworkPath Hmd Htd);
    [|unfold makerLeg; now rewrite Hleg | unfold takerLeg; now rewrite Hleg].
  cbn [noRoute noNetworkPath path isNoNetwork length Nat.eqb negb andb orb].
  rewrite Hsg.
  exists (takeOrderArgs env signedOrder fill td noNetworkPath noNetworkPath sg).
  eexists. split; [|split; [|split; [|split]]].
  - unfold lookupCalls, makerLeg, takerLeg. rewrite !Hleg by assumption.
    cbn [snd app]. reflexivity.
  - reflexivity.
  - reflexivity.
  - reflexivity.
  - intros tx Htx. cbn [fst] in Htx.
    destruct (prepFuncTx env _ _ _ _ _ _ _); [|discriminate].
    injection Htx as <-. split; reflexivity.
Qed.

(** A fill of the sample order on a relay without currency networks. *)
Lemma fill_between_tokens_outside_the_network_witness :
  length (snd (prepTakeOrder (FakeExchange.fakeEnv (fun _ => false) (fun _ => []))
                 FakeExchange.signedSample "1" FakeExchange.noOptions [])) = 5%nat /\
  existsb isPrepCall
    (snd (prepTakeOrder (FakeExchange.fakeEnv (fun _ => false) (fun _ => []))
            FakeExchange.signedSample "1" FakeExchange.noOptions [])) = true.
Proof.
  destruct (fill_between_tokens_outside_the_network
              (FakeExchange.fakeEnv (fun _ => false) (fun _ => []))
              FakeExchange.signedSample "1" FakeExchange.noOptions [] 2 2
              {| sig_r := "0x01"; sig_s := "0x02"; sig_v := 27 |}
              eq_refl eq_refl eq_refl eq_refl eq_refl)
    as (args & limit & Hlog & _).
  rewrite Hlog. split; reflexivity.
Defined.

(** X7. What a fill hands to the contract against what the hash was taken
    over. [getFees] resolves, with no call, to an order for which the six
    addresses of the call (the exchange and the five of [getOrderAddresses])
    are the hashed ones exactly when the taker of the signed order is the
    zero address, and the six values of [getOrderValues] are the hashed ones
    exactly when the raw amount of the zero fee reads as zero. *)
Theorem fill_arguments_against_hashed_fields
  (env : Env) (signedOrder : Order) (log : list Event) :
  exists orderWithFees,
    getFees env signedOrder log = (Ok orderWithFees, log) /\
    (map EthABI.Address
       (exchangeContractAddress orderWithFees :: getOrderAddresses orderWithFees) =
       firstn 6 (Hasher.orderParts orderWithFees) <->
     taker signedOrder = ZERO_ADDRESS) /\
    (map EthABI.Uint256 (getOrderValues orderWithFees) =
       skipn 6 (Hasher.orderParts orderWithFees) <->
     toNumber (BigNumber (raw (formatAmount env "0" 2))) = Finite 0).
Proof.
  eexists. split; [reflexivity|]. split.
  - unfold getOrderAddresses, Hasher.orderParts.
    cbn [map firstn exchangeContractAddress maker taker makerTokenAddress
         takerTokenAddress feeRecipient].
    split.
    + intros H. injection H as H. symmetry. exact H.
    + intros ->. reflexivity.
  - unfold getOrderValues, toInt, Hasher.orderParts, BigNumber.
    cbn [map skipn makerTokenAmount takerTokenAmount makerFee takerFee
         expirationUnixTimestampSec salt].
    split.
    + intros H. injection H as H _. symmetry. exact H.
    + intros ->. reflexivity.
Qed.

End FillProperties.

(** * Further properties of the order hash *)

Lemma app_same_length {A} (a a' b b' : list A) :
  length a = length a' -> a ++ b = a' ++ b' -> a = a' /\ b = b'.
Proof.
  revert a'. induction a as [|x a IH]; intros [|x' a'] Hlen H;
    try discriminate Hlen.
  - split; [reflexivity | exact H].
  - injection H as -> H. injection Hlen as Hlen.
    destruct (IH a' Hlen H) as [-> ->]. split; reflexivity.
Qed.

Lemma be_bytes_32_injective (n m : Z) :
  0 <= n < 2 ^ 53 -> 0 <= m < 2 ^ 53 -> be_bytes 32 n = be_bytes 32 m -> n = m.
Proof.
  intros Hn Hm H.
  assert (Hbound : 2 ^ 53 <= 256 ^ Z.of_nat 32) by (vm_compute; discriminate).
  rewrite <- (be_value_be_bytes 32 n), <- (be_value_be_bytes 32 m) by lia.
  now rewrite H.
Qed.

Module HashProperties.
Import EthABI Hasher HasherFacts EthersWallet WalletSpec.

(** X8. The bytes that are hashed determine the order: two well-formed
    orders are packed to the same bytes only if they have the same six
    addresses and the same six integers. What an order carries beside them,
    such as its signature, does not reach the hash. *)
Theorem packing_determines_the_twelve_fields (order1 order2 : Order) :
  wellFormed order1 -> wellFormed order2 ->
  solidityPack (orderParts order1) = solidityPack (orderParts order2) ->
  addressFields order1 = addressFields order2 /\
  uintFields order1 = uintFields order2.
Proof.
  intros W1 W2 H.
  rewrite !solidityPack_wellFormed in H by assumption.
  injection H as H. destruct W1 as [A1 U1], W2 as [A2 U2].
  unfold packedOrder in H. unfold addressFields, uintFields in *.
  repeat match goal with
         | Ha : Forall isAddress (_ :: _) |- _ =>
             apply Forall_cons_iff in Ha; destruct Ha as [[? _] Ha]
         | Hu : Forall (fun n => 0 <= n < 2 ^ 53) (_ :: _) |- _ =>
             apply Forall_cons_iff in Hu; destruct Hu as [? Hu]
         end.
  repeat match type of H with
         | _ ++ _ = _ ++ _ =>
             apply app_same_length in H;
             [destruct H as [? H] | rewrite ?be_bytes_length; congruence]
         end.
  repeat match goal with
         | Hb : be_bytes 32 _ = be_bytes 32 _ |- _ =>
             apply be_bytes_32_injective in Hb; [|assumption|assumption]
         end.
  split; congruence.
Qed.

(** The sample order, unsigned and signed. *)
Lemma packing_determines_the_twelve_fields_witness :
  Fakes.sampleOrder <> FakeExchange.signedSample /\
  addressFields Fakes.sampleOrder = addressFields FakeExchange.signedSample /\
  uintFields Fakes.sampleOrder = uintFields FakeExchange.signedSample.
Proof.
  split; [discriminate|].
  apply (packing_determines_the_twelve_fields
           Fakes.sampleOrder FakeExchange.signedSample).
  - split; solve_Forall.
  - split; solve_Forall.
  - reflexivity.
Defined.

Section Signing.
Variable keccak256 : Buffer -> Buffer.
Variable signDigest : Buffer -> Buffer -> string.
Variable splitSignature : string -> ECSignature.

(** X9. The hash of an order is a digest that the wallet signs: when the
    hash function gives 32 bytes, whatever [getOrderHashHex] returns is a
    0x-prefixed hex string of 32 bytes, and [signMsgHash] of a loaded wallet
    never refuses it: it signs, under the personal-message scheme, the very
    32 bytes that were the hash of the packed order. *)
Theorem order_hash_is_signed_as_its_digest
  (order : Order) (h : string) (w : SigningKey) :
  (forall b, length (keccak256 b) = 32%nat /\ Forall isByte (keccak256 b)) ->
  getOrderHashHex keccak256 order = Ok h ->
  isHexString h (Some 32%nat) = true /\
  exists packed,
    solidityPack (orderParts order) = Ok packed /\
    arrayify h = Ok (keccak256 packed) /\
    signMsgHash keccak256 signDigest splitSignature (Some w) h =
      Ok (personalSignature keccak256 signDigest splitSignature w (keccak256 packed)).
Proof.
  intros Hk Hh. unfold getOrderHashHex, soliditySHA3 in Hh.
  destruct (solidityPack (orderParts order)) as [packed|e]; [|discriminate].
  injection Hh as <-. destruct (Hk packed) as [Hlen Hbytes].
  pose proof (isHexString_bufferToHex _ Hbytes) as Hhex.
  split.
  - unfold isHexString, bufferToHex in *. rewrite andb_true_r in Hhex.
    rewrite Hhex, hexOfBytes_length, Hlen. reflexivity.
  - exists packed. split; [reflexivity|]. split.
    + now apply arrayify_bufferToHex.
    + unfold signMsgHash. rewrite Hhex.
      rewrite arrayify_bufferToHex by exact Hbytes. reflexivity.
Qed.

End Signing.

(** The hash of the sample order, signed by a wallet double. *)
Lemma order_hash_is_signed_as_its_digest_witness :
  match getOrderHashHex Fakes.fakeKeccak Fakes.sampleOrder with
  | Ok h =>
      isHexString h (Some 32%nat) = true /\
      isOk (signMsgHash Fakes.fakeKeccak FakeWallet.fakeSign FakeWallet.fakeSplit
              (Some (FakeWallet.fakeKey 7)) h) = true
  | Throw _ => False
  end.
Proof.
  remember (getOrderHashHex Fakes.fakeKeccak Fakes.sampleOrder) as r eqn:Hr.
  destruct r as [h|e]; [|vm_compute in Hr; discriminate].
  destruct (order_hash_is_signed_as_its_digest
              Fakes.fakeKeccak FakeWallet.fakeSign FakeWallet.fakeSplit
              Fakes.sampleOrder h (FakeWallet.fakeKey 7)
              (fun b => conj (be_bytes_length 32 _) (be_bytes_isByte 32 _))
              (eq_sym Hr))
    as (Hhex & packed & _ & _ & Hsig).
  split; [exact Hhex | now rewrite Hsig].
Defined.

End HashProperties.

(** * Further properties of the ethers wallet *)
Module WalletOperationProperties.
Import EthersWallet WalletOperations.

Section Operations.
Variable provider : Provider.
Variable bigNumberify : string + number -> result Z.
Variable signTransaction : Buffer -> TransactionRequest -> result string.

Abbreviation confirm := (confirm provider bigNumberify signTransaction).

(** X12. [confirm] sends only what the loaded key signed. Either nothing
    reaches the provider and the call fails, or exactly one transaction is
    sent: the output of the wallet's [sign] under the loaded key for the
    request whose gas limit, gas price and value are the converted ones and
    whose data, nonce and receiver are those of the raw transaction; the
    result is then the provider's answer. A result is returned only in the
    second case. *)
Theorem confirm_sends_only_the_signed_transaction
  (this : Wallet) (rawTx : RawTxObject) (log : list ProviderCall) :
  (snd (confirm this rawTx log) = log /\ isOk (fst (confirm this rawTx log)) = false) \/
  (exists w limit price amount signedTransaction,
     this = Some w /\
     bigNumberify (plain (tx_gasLimit rawTx)) = Ok limit /\
     bigNumberify (plain (tx_gasPrice rawTx)) = Ok price /\
     bigNumberify (plain (tx_value rawTx)) = Ok amount /\
     signTransaction (privateKey w)
       {| req_data := tx_data rawTx; req_gasLimit := limit;
          req_gasPrice := price; req_nonce := tx_nonce rawTx;
          req_to := tx_to rawTx; req_value := amount |} = Ok signedTransaction /\
     confirm this rawTx log =
       (sendSignedTransaction provider signedTransaction,
        log ++ [CallSendSignedTransaction signedTransaction])).
Proof.
  unfold WalletOperations.confirm.
  destruct this as [w|]; [|left; split; reflexivity].
  destruct (bigNumberify (plain (tx_gasLimit rawTx))) as [limit|e] eqn:Hl;
    [|left; split; reflexivity].
  destruct (bigNumberify (plain (tx_gasPrice rawTx))) as [price|e] eqn:Hp;
    [|left; split; reflexivity].
  destruct (bigNumberify (plain (tx_value rawTx))) as [amount|e] eqn:Hv;
    [|left; split; reflexivity].
  destruct (signTransaction _ _) as [signedTransaction|e] eqn:Hs;
    [|left; split; reflexivity].
  right. exists w, limit, price, amount, signedTransaction.
  repeat split; assumption.
Qed.

End Operations.

(** The sample transaction, confirmed by a loaded wallet double: it is sent. *)
Lemma confirm_sends_only_the_signed_transaction_witness :
  exists signedTransaction,
    WalletOperations.confirm FakeProvider.fakeProvider FakeProvider.fakeBigNumberify
      FakeProvider.fakeSignTransaction (Some (FakeWallet.fakeKey 7))
      FakeProvider.sampleRawTx [] =
    (Ok signedTransaction, [CallSendSignedTransaction signedTransaction]).
Proof.
  destruct (confirm_sends_only_the_signed_transaction
              FakeProvider.fakeProvider FakeProvider.fakeBigNumberify
              FakeProvider.fakeSignTransaction (Some (FakeWallet.fakeKey 7))
              FakeProvider.sampleRawTx [])
    as [[_ Hfail] | (w & limit & price & amount & signedTransaction & _ & _ & _ & _ & _ & Hrun)].
  - vm_compute in Hfail. discriminate Hfail.
  - exists signedTransaction. rewrite Hrun. reflexivity.
Defined.

End WalletOperationProperties.
